(** * ssm-env: a shallow embedding of the interactive SSM parameter editor

    The repository holds three generations of the same command-line tool:

    - [Legacy]  : the first program (second half of [main.go]): list, pick,
                  overwrite, every write typed "SecureString";
    - [Secure]  : the program with the [-debug] and [-secure] flags:
                  latest-write cache, sorting, entry creation with
                  [Overwrite: false];
    - [Manager] : the [SSMManager] program (first half of [main.go]):
                  the same loop split into methods, with a [-quiet] flag and
                  a bounded retry around every write.

    Go strings are byte strings and are modelled by [string]; a
    [*ssm.Parameter] is a record of its three dereferenced fields; the AWS
    service, the terminal prompts and the clock are an explicit [World] that
    every effectful function threads through. *)

From Stdlib Require Import List String Ascii Bool Arith NArith Lia.
From Stdlib Require Import Sorting.Sorted Sorting.Permutation.
Import ListNotations.
Local Open Scope string_scope.
Local Open Scope list_scope.

(* ================================================================== *)
(** ** The functions of Go's [strings], [fmt] and [sort] that the code calls *)
(* ================================================================== *)

Module GoLib.

(** [strings.HasPrefix] is [String.prefix]; [strings.TrimPrefix(s, p)]
    removes [p] from the front of [s] when it is there. *)
Fixpoint dropPrefix (p s : string) : option string :=
  match p, s with
  | EmptyString, _ => Some s
  | String a p', String b s' =>
      if Ascii.eqb a b then dropPrefix p' s' else None
  | String _ _, EmptyString => None
  end.

Definition TrimPrefix (s p : string) : string :=
  match dropPrefix p s with
  | Some rest => rest
  | None => s
  end.

(** [strings.SplitN(s, sep, 2)[0]]: the text before the first occurrence
    of [sep], the whole of [s] when [sep] does not occur. *)
Fixpoint SplitN2_first (sep s : string) : string :=
  match s with
  | EmptyString => EmptyString
  | String c r =>
      if String.prefix sep s then EmptyString
      else String c (SplitN2_first sep r)
  end.

(** [strings.Split(s, "/")] for the one-byte separator the code uses. *)
Fixpoint Split (s : string) (sep : ascii) : list string :=
  match s with
  | EmptyString => [EmptyString]
  | String c r =>
      if Ascii.eqb c sep then EmptyString :: Split r sep
      else match Split r sep with
           | h :: t => String c h :: t
           | [] => [String c EmptyString]
           end
  end.

(** [name[len(name)-1]] *)
Definition lastField (fields : list string) : string :=
  List.last fields EmptyString.

(** [strings.TrimSpace]: leading and trailing white space is removed, white
    space being what [unicode.IsSpace] accepts: the six ASCII characters
    (tab, line feed, vertical tab, form feed, carriage return, space),
    U+0085, U+00A0, U+1680, U+2000 to U+200A, U+2028, U+2029, U+202F, U+205F
    and U+3000.  The string is its UTF-8 bytes; a byte sequence that is not
    the encoding of one of these characters is no white space. *)
Definition isSpace (c : ascii) : bool :=
  let n := nat_of_ascii c in
  (((9 <=? n) && (n <=? 13)) || (n =? 32))%nat.

(** U+0085 is C2 85 and U+00A0 is C2 A0. *)
Definition isSpace2 (c1 c2 : ascii) : bool :=
  let b1 := nat_of_ascii c1 in
  let b2 := nat_of_ascii c2 in
  ((b1 =? 194) && ((b2 =? 133) || (b2 =? 160)))%nat.

(** U+1680 is E1 9A 80; U+2000 to U+200A are E2 80 80 to E2 80 8A; U+2028,
    U+2029 and U+202F are E2 80 A8, E2 80 A9 and E2 80 AF; U+205F is
    E2 81 9F; U+3000 is E3 80 80. *)
Definition isSpace3 (c1 c2 c3 : ascii) : bool :=
  let b1 := nat_of_ascii c1 in
  let b2 := nat_of_ascii c2 in
  let b3 := nat_of_ascii c3 in
  (((b1 =? 225) && (b2 =? 154) && (b3 =? 128))
   || ((b1 =? 226) && (b2 =? 128)
       && (((128 <=? b3) && (b3 <=? 138))
           || (b3 =? 168) || (b3 =? 169) || (b3 =? 175)))
   || ((b1 =? 226) && (b2 =? 129) && (b3 =? 159))
   || ((b1 =? 227) && (b2 =? 128) && (b3 =? 128)))%nat.

(** The white-space characters at the front go, one after the other. *)
Fixpoint trimLeft (s : string) : string :=
  match s with
  | EmptyString => EmptyString
  | String c1 r1 =>
      if isSpace c1 then trimLeft r1
      else
        match r1 with
        | EmptyString => s
        | String c2 r2 =>
            if isSpace2 c1 c2 then trimLeft r2
            else
              match r2 with
              | EmptyString => s
              | String c3 r3 =>
                  if isSpace3 c1 c2 c3 then trimLeft r3 else s
              end
        end
  end.

(** The same from the end, on the bytes in reverse order. *)
Fixpoint trimLeftReversed (l : list ascii) : list ascii :=
  match l with
  | [] => []
  | c1 :: r1 =>
      if isSpace c1 then trimLeftReversed r1
      else
        match r1 with
        | [] => l
        | c2 :: r2 =>
            if isSpace2 c2 c1 then trimLeftReversed r2
            else
              match r2 with
              | [] => l
              | c3 :: r3 =>
                  if isSpace3 c3 c2 c1 then trimLeftReversed r3 else l
              end
        end
  end.

Definition trimRight (s : string) : string :=
  string_of_list_ascii
    (rev (trimLeftReversed (rev (list_ascii_of_string s)))).

Definition TrimSpace (s : string) : string := trimRight (trimLeft s).

(** [fmt.Sprintf("%s = %s", name, value)] *)
Definition Sprintf_kv (name value : string) : string :=
  (name ++ " = " ++ value)%string.

(** [%d] for the small counts the code prints. *)
Definition digit (n : nat) : string :=
  String (ascii_of_nat (48 + n)) EmptyString.

Fixpoint decimal_fuel (fuel n : nat) : string :=
  match fuel with
  | 0 => digit (n mod 10)
  | S f =>
      if (n <? 10)%nat then digit n
      else (decimal_fuel f (n / 10) ++ digit (n mod 10))%string
  end.

Definition Sprintf_d (n : nat) : string := decimal_fuel n n.

(** [sort.Slice(s, less)]: the runtime sorts a short slice by insertion,
    each element moving left while it is [less] than its predecessor.
    On a sorted prefix that is the position in front of the first element
    the new one is [less] than.  Longer slices are sorted by another
    algorithm; with distinct keys the result is the same. *)
Section Sort.
Context {A : Type} (less : A -> A -> bool).

Fixpoint insert (x : A) (sorted : list A) : list A :=
  match sorted with
  | [] => [x]
  | y :: r => if less x y then x :: y :: r else y :: insert x r
  end.

Fixpoint insertionSort (sorted rest : list A) : list A :=
  match rest with
  | [] => sorted
  | x :: r => insertionSort (insert x sorted) r
  end.

Definition sortSlice (s : list A) : list A := insertionSort [] s.
End Sort.

(** [strings.Contains(s, substr)] *)
Fixpoint Contains (s substr : string) : bool :=
  if String.prefix substr s then true
  else match s with
       | EmptyString => false
       | String _ rest => Contains rest substr
       end.

(** What [strings.ToLower] does to a string of ASCII bytes: the letters A to
    Z become a to z.  On other strings it follows the case tables of
    Unicode, which are taken as a parameter where they are needed. *)
Definition lowerByte (c : ascii) : ascii :=
  let n := nat_of_ascii c in
  if ((65 <=? n) && (n <=? 90))%nat then ascii_of_nat (n + 32) else c.

Fixpoint ToLowerASCII (s : string) : string :=
  match s with
  | EmptyString => EmptyString
  | String c rest => String (lowerByte c) (ToLowerASCII rest)
  end.

(** No byte of [s] is 128 or more. *)
Definition isASCII (s : string) : bool :=
  forallb (fun c => (nat_of_ascii c <? 128)%nat) (list_ascii_of_string s).

End GoLib.

(* ================================================================== *)
(** ** Data model: [ssm.Parameter] and the reconciliation of a listing *)
(* ================================================================== *)

(** [ssm.Parameter], with the fields the program reads. *)
Record Param : Type := mkParam {
Name : string;
Value : string;
Type_ : string   (* "String", "StringList" or "SecureString" *)
}.

Module Listing.
Import GoLib.

(** The closure handed to [sort.Slice]:
    [*parameters[i].Name < *parameters[j].Name]. *)
Definition less (a b : Param) : bool := String.ltb (Name a) (Name b).

(** [for i, param := range parameters { if *param.Name == *latest.Name
      { parameters[i] = latest; break } }] *)
Fixpoint replaceFirst (latest : Param) (parameters : list Param)
  : list Param :=
  match parameters with
  | [] => []
  | param :: rest =>
      if String.eqb (Name param) (Name latest) then latest :: rest
      else param :: replaceFirst latest rest
  end.

(** [if latestParam != nil { ... }] *)
Definition applyLatest (latestParam : option Param)
                       (parameters : list Param) : list Param :=
  match latestParam with
  | Some latest => replaceFirst latest parameters
  | None => parameters
  end.

(** Lines 129-143 of [fetchParameters] in [Manager], lines 60-73 of [main]
    in [Secure]: the two programs run the same statements. *)
Definition reconcile (latestParam : option Param)
                     (parameters : list Param) : list Param :=
  sortSlice less (applyLatest latestParam parameters).

(** Ascending by full name. *)
Definition byName (a b : Param) : Prop :=
  String.leb (Name a) (Name b) = true.

End Listing.

(* ================================================================== *)
(** ** The environment: parameter store, terminal, clock *)
(* ================================================================== *)

Module Env.
Import GoLib.

(** Go [error] values.  The two interrupt sentinels are compared by
    identity in the code, every other error only through its message. *)
Inductive error : Type :=
| PromptInterrupt                (* promptui.ErrInterrupt *)
| PromptEOF                      (* promptui.ErrEOF *)
| ReadlineInterrupt              (* readline.ErrInterrupt *)
| ReadlineEOF                    (* io.EOF *)
| Errorf (msg : string).         (* fmt.Errorf, and the errors of the SDK *)

(** [err.Error()] *)
Definition Error (e : error) : string :=
  match e with
  | PromptInterrupt => "^C"
  | PromptEOF => "^D"
  | ReadlineInterrupt => "Interrupt"
  | ReadlineEOF => "EOF"
  | Errorf msg => msg
  end.

(** A Go [(value, error)] pair. *)
Inductive result (A : Type) : Type :=
| Ok (a : A)
| Err (e : error).
Arguments Ok {A} a.
Arguments Err {A} e.

(** [ssm.GetParametersByPathInput]; the continuation token is the offset
    the service hands back. *)
Record GetParametersByPathInput : Type := mkGet {
  Path : string;
  Recursive : bool;
  WithDecryption : bool;
  NextToken : option nat
}.

(** [ssm.PutParameterInput] *)
Record PutParameterInput : Type := mkPut {
  PutName : string;
  PutValue : string;
  PutType : string;
  Overwrite : bool
}.

(** What the user does at the next prompt. *)
Inductive Answer : Type :=
| Interrupt                      (* ctrl+c *)
| EndOfInput                     (* ctrl+d, closed terminal *)
| Chosen (index : nat)           (* enter on the item at [index] *)
| Typed (line : string).         (* a line of text, then enter *)

(** Everything observable the program does. *)
Inductive Event : Type :=
| CallGetParametersByPath (input : GetParametersByPathInput)
| CallPutParameter (input : PutParameterInput)
| Sleep (milliseconds : nat)                       (* time.Sleep *)
| Print (text : string)                            (* fmt.Print, Printf, Println *)
| LogPrintf (text : string)                        (* log.Printf, log.Fatalf *)
| AskSelect (items : list string)                  (* promptui.Select.Run *)
| AskPrompt (label : string)                       (* promptui.Prompt.Run *)
| AskReadline (default : string) (mask : bool)     (* rl.ReadlineWithDefault *)
| AskStdin.                                        (* reader.ReadString *)

(** The world the program runs in:
    - [store]  : the remote parameters, in the order the service lists them;
    - [faults] : the fate of the coming API calls, [Some msg] a transport,
                 authentication or permission failure with that message;
    - [script] : the coming answers of the user;
    - [trace]  : what the program has done so far, oldest first. *)
Record World : Type := mkWorldWith {
  store : list Param;
  faults : list (option string);
  script : list Answer;
  trace : list Event;
  refusal : string
}.

(** [refusal] is the text of the error with which the service refuses to
    create a parameter that exists.  The SDK puts it together from the code
    "ParameterAlreadyExists", the message of the service and, depending on
    its version, the status code and the request id: like the messages of
    [faults] it is an input.  A world built with [mkWorld] has the code and
    the message. *)
Definition mkWorld (store : list Param) (faults : list (option string))
    (script : list Answer) (trace : list Event) : World :=
  mkWorldWith store faults script trace
    "ParameterAlreadyExists: The parameter already exists. To overwrite this value, set the overwrite option in the request to true.".

Definition emit (e : Event) (w : World) : World :=
  mkWorldWith (store w) (faults w) (script w) (trace w ++ [e]) (refusal w).

Definition Println (text : string) (w : World) : World :=
  emit (Print (text ++ String (ascii_of_nat 10) EmptyString)%string) w.

Definition nextFault (w : World) : option string * World :=
  match faults w with
  | [] => (None, w)
  | f :: rest =>
      (f, mkWorldWith (store w) rest (script w) (trace w) (refusal w))
  end.

Definition nextAnswer (w : World) : option Answer * World :=
  match script w with
  | [] => (None, w)
  | a :: rest =>
      (Some a, mkWorldWith (store w) (faults w) rest (trace w) (refusal w))
  end.

Definition setStore (s : list Param) (w : World) : World :=
  mkWorldWith s (faults w) (script w) (trace w) (refusal w).

(** *** The parameter store *)

(** The service's page size. *)
Definition maxResults : nat := 10.

Definition hasSlash (s : string) : bool :=
  existsb (Ascii.eqb "/"%char) (list_ascii_of_string s).

(** With [Recursive: false] the service lists the parameters one level
    below the path. *)
Definition isChild (path : string) (p : Param) : bool :=
  match dropPrefix path (Name p) with
  | Some rel => negb (String.eqb rel EmptyString) && negb (hasSlash rel)
  | None => false
  end.

Definition children (path : string) (s : list Param) : list Param :=
  filter (isChild path) s.

(** [svc.GetParametersByPath(input)]: one page and the token of the next. *)
Definition GetParametersByPath (input : GetParametersByPathInput) (w : World)
  : result (list Param * option nat) * World :=
  let (fault, w1) := nextFault (emit (CallGetParametersByPath input) w) in
  match fault with
  | Some msg => (Err (Errorf msg), w1)
  | None =>
      let all := children (Path input) (store w1) in
      let offset := match NextToken input with Some n => n | None => 0 end in
      let page := firstn maxResults (skipn offset all) in
      let next := if (offset + maxResults <? List.length all)%nat
                  then Some (offset + maxResults) else None in
      (Ok (page, next), w1)
  end.

Definition exists_ (name : string) (s : list Param) : bool :=
  existsb (fun p => String.eqb (Name p) name) s.

Fixpoint overwrite (new : Param) (s : list Param) : list Param :=
  match s with
  | [] => []
  | p :: rest =>
      if String.eqb (Name p) (Name new) then new :: rest
      else p :: overwrite new rest
  end.

(** [svc.PutParameter(input)]: a new name is added; an existing one is
    rewritten when [Overwrite] is set and refused, with the error text of
    the world, when it is not. *)
Definition PutParameter (input : PutParameterInput) (w : World)
  : option error * World :=
  let (fault, w1) := nextFault (emit (CallPutParameter input) w) in
  match fault with
  | Some msg => (Some (Errorf msg), w1)
  | None =>
      let new := mkParam (PutName input) (PutValue input) (PutType input) in
      if exists_ (PutName input) (store w1) then
        if Overwrite input
        then (None, setStore (overwrite new (store w1)) w1)
        else (Some (Errorf (refusal w1)), w1)
      else (None, setStore (store w1 ++ [new]) w1)
  end.

(** *** The terminal *)

(** An answer that does not fit the prompt, or no answer at all, counts as
    a closed terminal. *)

(** [promptui.Select.Run]: the index and the text of the chosen item. *)
Definition SelectRun (items : list string) (w : World)
  : result (nat * string) * World :=
  let (answer, w1) := nextAnswer (emit (AskSelect items) w) in
  match answer with
  | Some (Chosen index) =>
      match nth_error items index with
      | Some item => (Ok (index, item), w1)
      | None => (Err PromptEOF, w1)
      end
  | Some Interrupt => (Err PromptInterrupt, w1)
  | _ => (Err PromptEOF, w1)
  end.

(** [promptui.Prompt.Run] *)
Definition PromptRun (label : string) (w : World) : result string * World :=
  let (answer, w1) := nextAnswer (emit (AskPrompt label) w) in
  match answer with
  | Some (Typed line) => (Ok line, w1)
  | Some Interrupt => (Err PromptInterrupt, w1)
  | _ => (Err PromptEOF, w1)
  end.

(** [rl.ReadlineWithDefault(what)]: the line as the user leaves it. *)
Definition ReadlineWithDefault (what : string) (mask : bool) (w : World)
  : result string * World :=
  let (answer, w1) := nextAnswer (emit (AskReadline what mask) w) in
  match answer with
  | Some (Typed line) => (Ok line, w1)
  | Some Interrupt => (Err ReadlineInterrupt, w1)
  | _ => (Err ReadlineEOF, w1)
  end.

(** [reader.ReadString('\n')] with its error dropped. *)
Definition ReadString (w : World) : string * World :=
  let (answer, w1) := nextAnswer (emit AskStdin w) in
  match answer with
  | Some (Typed line) => (line, w1)
  | _ => (EmptyString, w1)
  end.

(** *** The pagination loop shared by the three [fetchParameters] *)

Fixpoint fetchPages (fuel : nat) (prefix : string) (nextToken : option nat)
                    (parameters : list Param) (w : World)
  : option (result (list Param) * World) :=
  match fuel with
  | 0 => None
  | S fuel' =>
      let input := mkGet prefix false true nextToken in
      let (r, w1) := GetParametersByPath input w in
      match r with
      | Err e => Some (Err e, w1)
      | Ok (page, next) =>
          let parameters := parameters ++ page in
          match next with
          | None => Some (Ok parameters, w1)
          | Some token => fetchPages fuel' prefix (Some token) parameters w1
          end
      end
  end.

(** One call more than there are parameters always is enough. *)
Definition fetchAll (prefix : string) (w : World)
  : option (result (list Param) * World) :=
  fetchPages (S (List.length (store w))) prefix None [] w.

(** How a [main] ends. *)
Inductive Outcome : Type :=
| Returned          (* [return] from [main] *)
| Exited            (* [log.Fatalf] *)
| Panicked          (* index out of range *)
| OutOfFuel.        (* still looping *)

Definition puts (t : list Event) : list PutParameterInput :=
  flat_map (fun e => match e with CallPutParameter i => [i] | _ => [] end) t.

Definition gets (t : list Event) : list GetParametersByPathInput :=
  flat_map (fun e => match e with CallGetParametersByPath i => [i] | _ => [] end) t.

Definition sleeps (t : list Event) : list nat :=
  flat_map (fun e => match e with Sleep ms => [ms] | _ => [] end) t.

Definition HasSuffix (s suffix : string) : bool :=
  (String.length suffix <=? String.length s)%nat
  && String.eqb (substring (String.length s - String.length suffix)
                           (String.length suffix) s) suffix.

End Env.

(** One turn of a [for { ... }] loop: [continue] with the cache it leaves,
    or the end of [main]. *)
Inductive Step : Type :=
| Continue (latestParam : option Param)
| Stop (o : Env.Outcome).

(* ================================================================== *)
(** ** [Legacy]: the first program (main.go, second program of the file) *)
(* ================================================================== *)

Module Legacy.
Import GoLib Env.

Definition formatParameters (params : list Param) : list string :=
  fold_left
    (fun formatted param =>
       let name := Split (Name param) "/"%char in
       formatted ++ [Sprintf_kv (lastField name) (Value param)])
    params [].

Definition updateParameter (name value : string) (w : World)
  : option error * World :=
  PutParameter (mkPut name value "SecureString" true) w.

(** The body of the [for] loop of [main]. *)
Definition iteration (prefix : string) (w : World) : Step * World :=
  match fetchAll prefix w with
  | None => (Stop OutOfFuel, w)
  | Some (Err err, w1) =>
      (Stop Returned,
       Println ("Error fetching parameters: " ++ Error err)%string w1)
  | Some (Ok params, w1) =>
      let (sel, w2) := SelectRun (formatParameters params) w1 in
      match sel with
      | Err PromptInterrupt =>
          (Stop Returned,
           Println (String (ascii_of_nat 10) "Quitting...") w2)
      | Err err =>
          (Stop Returned, Println ("Prompt failed " ++ Error err)%string w2)
      | Ok (index, result) =>
          let paramName := SplitN2_first " = " result in
          let paramName := (prefix ++ paramName)%string in
          match nth_error params index with
          | None => (Stop Panicked, w2)
          | Some selected =>
              let w3 := Println ("Current value: " ++ Value selected)%string w2 in
              let w4 := emit (Print "Enter new value (or press Enter to cancel): ") w3 in
              let (newValue, w5) := ReadString w4 in
              let newValue := TrimSpace newValue in
              if String.eqb newValue EmptyString then
                (Continue None, Println "Update cancelled." w5)
              else
                let (err, w6) := updateParameter paramName newValue w5 in
                match err with
                | Some e =>
                    (Continue None,
                     Println ("Error updating parameter: " ++ Error e)%string w6)
                | None =>
                    (Continue None, Println "Parameter updated successfully." w6)
                end
          end
      end
  end.

Fixpoint loop (fuel : nat) (prefix : string) (w : World) : Outcome * World :=
  match fuel with
  | 0 => (OutOfFuel, w)
  | S fuel' =>
      match iteration prefix w with
      | (Continue _, w1) => loop fuel' prefix w1
      | (Stop o, w1) => (o, w1)
      end
  end.

Definition main (fuel : nat) (w : World) : Outcome * World :=
  let w1 := emit (Print "Enter SSM parameter prefix: ") w in
  let (prefix, w2) := ReadString w1 in
  let prefix := TrimSpace prefix in
  let prefix := if HasSuffix prefix "/" then prefix else (prefix ++ "/")%string in
  loop fuel prefix w2.

End Legacy.

(* ================================================================== *)
(** ** [Secure]: the program with [-debug] and [-secure] *)
(* ================================================================== *)

Module Secure.
Import GoLib Env.

Definition paramTypes : list string := ["String"; "StringList"; "SecureString"].

Definition formatParameters (params : list Param) (secure : bool)
  : list string :=
  fold_left
    (fun formatted param =>
       let value := Value param in
       let value :=
         if secure && String.eqb (Type_ param) "SecureString"
         then "******" else value in
       let name := Split (Name param) "/"%char in
       formatted ++ [Sprintf_kv (lastField name) value])
    params [].

Definition updateParameter (name value paramType : string) (w : World)
  : option error * World :=
  PutParameter (mkPut name value paramType true) w.

Definition createNewParameter (prefix : string) (quiet : bool) (w : World)
  : option error * World :=
  let (name, w1) := PromptRun "Enter new parameter name" w in
  match name with
  | Err err => (Some (Errorf ("name prompt failed: " ++ Error err)%string), w1)
  | Ok name =>
      let (value, w2) := PromptRun "Enter parameter value" w1 in
      match value with
      | Err err =>
          (Some (Errorf ("value prompt failed: " ++ Error err)%string), w2)
      | Ok value =>
          let (sel, w3) := SelectRun paramTypes w2 in
          match sel with
          | Err err =>
              (Some (Errorf ("type prompt failed: " ++ Error err)%string), w3)
          | Ok (_, paramType) =>
              let fullName := (prefix ++ name)%string in
              let (err, w4) :=
                PutParameter (mkPut fullName value paramType false) w3 in
              match err with
              | Some e =>
                  (Some (Errorf ("failed to create parameter: " ++ Error e)%string),
                   w4)
              | None =>
                  (None,
                   if negb quiet
                   then Println "Parameter created successfully." w4 else w4)
              end
          end
      end
  end.

(** Lines 137-204 of [main]: the turn after an entry was picked. *)
Definition editSelected (prefix : string) (debug secure : bool)
    (params : list Param) (index : nat) (result : string)
    (latestParam : option Param) (w : World) : Step * World :=
  let paramName := SplitN2_first " = " result in
  let paramName := (prefix ++ paramName)%string in
  match nth_error params (index - 1) with
  | None => (Stop Panicked, w)
  | Some selected =>
      let currentValue := Value selected in
      let currentValue := if secure then EmptyString else currentValue in
      let w1 :=
        if debug then
          if secure then Println "Current value: ******" w
          else Println ("Current value: " ++ currentValue)%string w
        else w in
      let (line, w2) := ReadlineWithDefault currentValue secure w1 in
      match line with
      | Err ReadlineInterrupt =>
          (Continue latestParam,
           if debug
           then Println (String (ascii_of_nat 10) "Update cancelled.") w2
           else w2)
      | Err err =>
          (Stop Returned, Println ("Input failed " ++ Error err)%string w2)
      | Ok newValue =>
          let newValue := TrimSpace newValue in
          if String.eqb newValue EmptyString || String.eqb newValue currentValue
          then
            (Continue latestParam,
             if debug then Println "No changes made." w2 else w2)
          else
            let (err, w3) :=
              updateParameter paramName newValue (Type_ selected) w2 in
            match err with
            | Some e =>
                (Continue latestParam,
                 Println ("Error updating parameter: " ++ Error e)%string w3)
            | None =>
                (Continue (Some (mkParam paramName newValue (Type_ selected))),
                 if debug
                 then Println "Parameter updated successfully." w3 else w3)
            end
      end
  end.

(** The body of the [for] loop of [main]. *)
Definition iteration (prefix : string) (debug secure : bool)
    (latestParam : option Param) (w : World) : Step * World :=
  match fetchAll prefix w with
  | None => (Stop OutOfFuel, w)
  | Some (Err err, w1) =>
      (Stop Returned,
       Println ("Error fetching parameters: " ++ Error err)%string w1)
  | Some (Ok params, w1) =>
      let params := Listing.reconcile latestParam params in
      let items := "Create new variable" :: formatParameters params secure in
      let (sel, w2) := SelectRun items w1 in
      match sel with
      | Err PromptInterrupt =>
          (Stop Returned,
           Println (String (ascii_of_nat 10) "Quitting...") w2)
      | Err err =>
          (Stop Returned, Println ("Prompt failed " ++ Error err)%string w2)
      | Ok (0, _) =>
          let (err, w3) := createNewParameter prefix debug w2 in
          match err with
          | Some e =>
              (Continue latestParam,
               Println ("Error creating parameter: " ++ Error e)%string w3)
          | None => (Continue latestParam, w3)
          end
      | Ok (index, result) =>
          editSelected prefix debug secure params index result latestParam w2
      end
  end.

(** The [Searcher] closure of the menu (lines 91-100), over
    [strings.ToLower]; [None] is the index out of range of [items[index]]. *)
Definition Searcher (ToLower : string -> string) (items : list string)
    (input : string) (index : nat) : option bool :=
  match nth_error items index with
  | None => None
  | Some item =>
      if (index =? 0)%nat then
        Some (Contains (ToLower item) (ToLower input))
      else
        let keyName := SplitN2_first " = " item in
        Some (Contains (ToLower keyName) (ToLower input))
  end.

Fixpoint loop (fuel : nat) (prefix : string) (debug secure : bool)
    (latestParam : option Param) (w : World) : Outcome * World :=
  match fuel with
  | 0 => (OutOfFuel, w)
  | S fuel' =>
      match iteration prefix debug secure latestParam w with
      | (Continue latestParam', w1) => loop fuel' prefix debug secure latestParam' w1
      | (Stop o, w1) => (o, w1)
      end
  end.

Definition main (fuel : nat) (prefixFlag : string) (debugFlag secureFlag : bool)
    (w : World) : Outcome * World :=
  let (prefix, w1) :=
    if negb (String.eqb prefixFlag EmptyString) then (Ok prefixFlag, w)
    else PromptRun "Enter SSM parameter prefix" w in
  match prefix with
  | Err err => (Returned, Println ("Prompt failed " ++ Error err)%string w1)
  | Ok prefix =>
      let prefix :=
        if HasSuffix prefix "/" then prefix else (prefix ++ "/")%string in
      loop fuel prefix debugFlag secureFlag None w1
  end.

End Secure.

(* ================================================================== *)
(** ** [Manager]: the [SSMManager] program (main.go, first program) *)
(* ================================================================== *)

Module Manager.
Import GoLib Env.

Definition maxRetries : nat := 5.
Definition retryDelay : nat := 200.   (* milliseconds *)

(** [type SSMManager struct]; the [svc] field is the [World]. *)
Record SSMManager : Type := mkManager {
  prefix : string;
  latestParam : option Param;
  quiet : bool
}.

Definition ensureTrailingSlash (s : string) : string :=
  if negb (HasSuffix s "/") then (s ++ "/")%string else s.

(** [getPrefix]; [None] is the [log.Fatalf] exit. *)
Definition getPrefix (flagValue : string) (w : World) : option string * World :=
  if negb (String.eqb flagValue EmptyString)
  then (Some (ensureTrailingSlash flagValue), w)
  else
    let (r, w1) := PromptRun "Enter SSM parameter prefix" w in
    match r with
    | Err err =>
        (None, emit (LogPrintf ("Prompt failed: " ++ Error err)%string) w1)
    | Ok answer => (Some (ensureTrailingSlash answer), w1)
    end.

(** [None]: the pagination ran out of fuel. *)
Definition fetchParameters (m : SSMManager) (w : World)
  : option (result (list Param) * World) :=
  match fetchAll (prefix m) w with
  | None => None
  | Some (Err err, w1) => Some (Err err, w1)
  | Some (Ok parameters, w1) =>
      Some (Ok (Listing.reconcile (latestParam m) parameters), w1)
  end.

Definition formatParameters (m : SSMManager) (params : list Param)
  : list string :=
  fold_left
    (fun formatted param =>
       let name := TrimPrefix (Name param) (prefix m) in
       formatted ++ [Sprintf_kv name (Value param)])
    params [].

Definition promptForAction (m : SSMManager) (params : list Param) (w : World)
  : result string * World :=
  let items :=
    if (List.length params =? 0)%nat
    then ["Create new variable"; "Quit"]
    else ("Create new variable" :: formatParameters m params) ++ ["Quit"] in
  let (sel, w1) := SelectRun items w in
  match sel with
  | Err err => (Err err, w1)
  | Ok (index, result) =>
      if String.eqb result "Quit" then (Ok "quit", w1)
      else if (index =? 0)%nat then (Ok "create", w1)
      else (Ok result, w1)
  end.

Fixpoint retryLoop (remaining : nat) (input : PutParameterInput) (w : World)
  : option error * World :=
  match remaining with
  | 0 =>
      (Some (Errorf ("failed to update parameter after "
                     ++ Sprintf_d maxRetries ++ " attempts")%string), w)
  | S remaining' =>
      let (err, w1) := PutParameter input w in
      match err with
      | None => (None, w1)
      | Some _ => retryLoop remaining' input (emit (Sleep retryDelay) w1)
      end
  end.

(** [for i := 0; i < maxRetries; i++ { ... }] *)
Definition updateParameterWithRetry (name value paramType : string) (w : World)
  : option error * World :=
  retryLoop maxRetries (mkPut name value paramType true) w.

Definition promptForInput (label : string) (w : World) : result string * World :=
  PromptRun label w.

Definition promptForParamType (w : World) : result string * World :=
  let (sel, w1) := SelectRun ["String"; "StringList"; "SecureString"] w in
  match sel with
  | Err err => (Err err, w1)
  | Ok (_, result) => (Ok result, w1)
  end.

Definition promptForNewValue (m : SSMManager) (currentValue : string) (w : World)
  : result string * World :=
  let (line, w1) := ReadlineWithDefault currentValue false w in
  match line with
  | Err ReadlineInterrupt => (Err (Errorf "update cancelled"), w1)
  | Err err => (Err err, w1)
  | Ok newValue => (Ok (TrimSpace newValue), w1)
  end.

Definition createNewParameter (m : SSMManager) (w : World)
  : option error * SSMManager * World :=
  let (name, w1) := promptForInput "Enter new parameter name" w in
  match name with
  | Err err => (Some err, m, w1)
  | Ok name =>
      let (value, w2) := promptForInput "Enter parameter value" w1 in
      match value with
      | Err err => (Some err, m, w2)
      | Ok value =>
          let (paramType, w3) := promptForParamType w2 in
          match paramType with
          | Err err => (Some err, m, w3)
          | Ok paramType =>
              let fullName := (prefix m ++ name)%string in
              let (err, w4) :=
                updateParameterWithRetry fullName value paramType w3 in
              match err with
              | Some e =>
                  (Some (Errorf ("failed to create parameter: " ++ Error e)%string),
                   m, w4)
              | None =>
                  (None, m,
                   if negb (quiet m)
                   then Println "Parameter created successfully." w4 else w4)
              end
          end
      end
  end.

Definition updateParameter (m : SSMManager) (params : list Param)
    (selection : string) (w : World) : option error * SSMManager * World :=
  let paramName := SplitN2_first " = " selection in
  let fullName := (prefix m ++ paramName)%string in
  match find (fun p => String.eqb (Name p) fullName) params with
  | None =>
      (Some (Errorf ("parameter not found: " ++ fullName)%string), m, w)
  | Some param =>
      let w1 :=
        if negb (quiet m) then
          Println ("Current value: " ++ Value param)%string
            (Println ("Updating parameter: " ++ fullName)%string w)
        else w in
      let (newValue, w2) := promptForNewValue m (Value param) w1 in
      match newValue with
      | Err err => (Some err, m, w2)
      | Ok newValue =>
          if String.eqb newValue (Value param) then
            (None, m, if negb (quiet m) then Println "No changes made." w2 else w2)
          else
            let (err, w3) :=
              updateParameterWithRetry fullName newValue (Type_ param) w2 in
            match err with
            | Some e =>
                (Some (Errorf ("error updating parameter: " ++ Error e)%string),
                 m, w3)
            | None =>
                let w4 :=
                  if negb (quiet m)
                  then Println "Parameter updated successfully." w3 else w3 in
                (None,
                 mkManager (prefix m)
                           (Some (mkParam fullName newValue (Type_ param)))
                           (quiet m),
                 w4)
            end
      end
  end.

(** [run]; [None]: the pagination ran out of fuel. *)
Definition run (m : SSMManager) (w : World)
  : option (option error * SSMManager * World) :=
  match fetchParameters m w with
  | None => None
  | Some (Err err, w1) =>
      Some (Some (Errorf ("error fetching parameters: " ++ Error err)%string),
            m, w1)
  | Some (Ok params, w1) =>
      let (action, w2) := promptForAction m params w1 in
      match action with
      | Err err =>
          Some (Some (Errorf ("error prompting for action: " ++ Error err)%string),
                m, w2)
      | Ok action =>
          if String.eqb action "quit" then
            Some (Some (Errorf "user quit"), m,
                  if negb (quiet m) then Println "Exiting..." w2 else w2)
          else if String.eqb action "create" then
            Some (createNewParameter m w2)
          else
            Some (updateParameter m params action w2)
      end
  end.

(** The [for] loop of [main]. *)
Fixpoint loop (fuel : nat) (manager : SSMManager) (w : World)
  : Outcome * SSMManager * World :=
  match fuel with
  | 0 => (OutOfFuel, manager, w)
  | S fuel' =>
      match run manager w with
      | None => (OutOfFuel, manager, w)
      | Some (None, manager', w1) => loop fuel' manager' w1
      | Some (Some err, manager', w1) =>
          if String.eqb (Error err) "user quit" then (Returned, manager', w1)
          else
            loop fuel' manager'
                 (emit (LogPrintf ("Error: " ++ Error err)%string) w1)
      end
  end.

Definition main (fuel : nat) (prefixFlag : string) (quietFlag : bool)
    (w : World) : Outcome * SSMManager * World :=
  let manager := mkManager EmptyString None quietFlag in
  let (p, w1) := getPrefix prefixFlag w in
  match p with
  | None => (Exited, manager, w1)
  | Some p => loop fuel (mkManager p None quietFlag) w1
  end.

End Manager.

(* ================================================================== *)
(** ** Vocabulary of the statements *)
(* ================================================================== *)

Module Obs.
Import Env.

(** How many of the coming API calls fail in a row. *)
Fixpoint failuresAhead (fs : list (option string)) : nat :=
  match fs with
  | Some _ :: rest => S (failuresAhead rest)
  | _ => 0
  end.

(** [k] write attempts that failed, each followed by the delay. *)
Fixpoint failedAttempts (k : nat) (input : PutParameterInput) (ms : nat)
  : list Event :=
  match k with
  | 0 => []
  | S k' => CallPutParameter input :: Sleep ms :: failedAttempts k' input ms
  end.

(** The world after the next API call was answered. *)
Definition answered (e : Event) (w : World) : World :=
  mkWorldWith (store w) (tl (faults w)) (script w) (trace w ++ [e])
              (refusal w).

(** The world after the user gave the next answer to a prompt. *)
Definition asked (e : Event) (w : World) : World :=
  mkWorldWith (store w) (faults w) (tl (script w)) (trace w ++ [e])
              (refusal w).

(** The string of the given bytes, for text outside ASCII. *)
Definition utf8 (bytes : list nat) : string :=
  string_of_list_ascii (map ascii_of_nat bytes).

(** A relative name with a blank in it; the store accepts none. *)
Definition hasSpace (s : string) : bool :=
  existsb (Ascii.eqb " "%char) (list_ascii_of_string s).

(** The entry a write carries. *)
Definition written (input : PutParameterInput) : Param :=
  mkParam (PutName input) (PutValue input) (PutType input).

(** The menu [Manager.promptForAction] shows. *)
Definition managerMenu (m : Manager.SSMManager) (params : list Param)
  : list string :=
  if (List.length params =? 0)%nat
  then ["Create new variable"; "Quit"]
  else ("Create new variable" :: Manager.formatParameters m params) ++ ["Quit"].

(** The menu [Secure.main] shows. *)
Definition secureMenu (secure : bool) (params : list Param) : list string :=
  "Create new variable" :: Secure.formatParameters params secure.

(** [w'] is [w] after more events, all of them satisfying [P]. *)
Definition grows (P : Event -> Prop) (w w' : World) : Prop :=
  exists delta, trace w' = trace w ++ delta /\ Forall P delta.

(** A read as every [fetchParameters] builds it. *)
Definition readOf (prefix : string) (g : GetParametersByPathInput) : Prop :=
  Path g = prefix /\ Recursive g = false /\ WithDecryption g = true.

(** What [Manager] may do in a session on [prefix]. *)
Definition managerEvent (prefix : string) (e : Event) : Prop :=
  match e with
  | CallGetParametersByPath g => readOf prefix g
  | CallPutParameter i =>
      String.prefix prefix (PutName i) = true /\ Overwrite i = true
  | Sleep ms => ms = Manager.retryDelay
  | AskStdin => False
  | _ => True
  end.

(** What [Secure] may do in a session on [prefix]. *)
Definition secureEvent (prefix : string) (e : Event) : Prop :=
  match e with
  | CallGetParametersByPath g => readOf prefix g
  | CallPutParameter i => String.prefix prefix (PutName i) = true
  | Sleep _ | LogPrintf _ | AskStdin => False
  | _ => True
  end.

(** What [Legacy] may do in a session on [prefix]. *)
Definition legacyEvent (prefix : string) (e : Event) : Prop :=
  match e with
  | CallGetParametersByPath g => readOf prefix g
  | CallPutParameter i =>
      String.prefix prefix (PutName i) = true
      /\ PutType i = "SecureString" /\ Overwrite i = true
  | Sleep _ | LogPrintf _ | AskPrompt _ | AskReadline _ _ => False
  | _ => True
  end.

End Obs.

(* ================================================================== *)
(** ** Facts about the library functions *)
(* ================================================================== *)

Section StringOrder.

Lemma ascii_compare_refl (a : ascii) : Ascii.compare a a = Eq.
Proof. unfold Ascii.compare. apply N.compare_refl. Qed.

Lemma ascii_compare_lt_trans (a b c : ascii) :
  Ascii.compare a b = Lt -> Ascii.compare b c = Lt -> Ascii.compare a c = Lt.
Proof.
  unfold Ascii.compare. rewrite !N.compare_lt_iff. apply N.lt_trans.
Qed.

Lemma string_compare_refl (s : string) : String.compare s s = Eq.
Proof.
  induction s as [|c s IH]; simpl; [reflexivity|].
  now rewrite ascii_compare_refl.
Qed.

Lemma string_compare_lt_trans (a b c : string) :
  String.compare a b = Lt -> String.compare b c = Lt -> String.compare a c = Lt.
Proof.
  revert b c.
  induction a as [|x a IH]; intros [|y b] [|z c]; simpl; try congruence.
  destruct (Ascii.compare x y) eqn:Exy; try discriminate;
    destruct (Ascii.compare y z) eqn:Eyz; try discriminate; intros Hab Hbc.
  - apply Ascii.compare_eq_iff in Exy, Eyz. subst.
    rewrite ascii_compare_refl. eauto.
  - apply Ascii.compare_eq_iff in Exy. subst. now rewrite Eyz.
  - apply Ascii.compare_eq_iff in Eyz. subst. now rewrite Exy.
  - now rewrite (ascii_compare_lt_trans _ _ _ Exy Eyz).
Qed.

Lemma string_leb_refl (s : string) : String.leb s s = true.
Proof. unfold String.leb. now rewrite string_compare_refl. Qed.

Lemma string_leb_trans (a b c : string) :
  String.leb a b = true -> String.leb b c = true -> String.leb a c = true.
Proof.
  unfold String.leb.
  destruct (String.compare a b) eqn:Eab; try discriminate;
    destruct (String.compare b c) eqn:Ebc; try discriminate; intros _ _.
  - apply String.compare_eq_iff in Eab, Ebc. subst.
    now rewrite string_compare_refl.
  - apply String.compare_eq_iff in Eab. subst. now rewrite Ebc.
  - apply String.compare_eq_iff in Ebc. subst. now rewrite Eab.
  - now rewrite (string_compare_lt_trans _ _ _ Eab Ebc).
Qed.

Lemma string_ltb_leb (a b : string) :
  String.ltb a b = true -> String.leb a b = true.
Proof.
  unfold String.ltb, String.leb. now destruct (String.compare a b).
Qed.

Lemma string_ltb_false_leb (a b : string) :
  String.ltb a b = false -> String.leb b a = true.
Proof.
  unfold String.ltb, String.leb. rewrite (String.compare_antisym a b).
  now destruct (String.compare b a).
Qed.

Lemma string_leb_ltb_false (a b : string) :
  String.leb a b = true -> String.ltb b a = false.
Proof.
  unfold String.ltb, String.leb. rewrite (String.compare_antisym a b).
  now destruct (String.compare b a).
Qed.

End StringOrder.

Section SortFacts.
Import GoLib Listing.

Lemma byName_trans (a b c : Param) : byName a b -> byName b c -> byName a c.
Proof. unfold byName. apply string_leb_trans. Qed.

Lemma insert_perm (x : Param) (s : list Param) :
  Permutation (insert less x s) (x :: s).
Proof.
  induction s as [|y r IH]; simpl; [reflexivity|].
  destruct (less x y); [reflexivity|].
  rewrite IH. apply perm_swap.
Qed.

Lemma insertionSort_perm (sorted rest : list Param) :
  Permutation (insertionSort less sorted rest) (sorted ++ rest).
Proof.
  revert sorted. induction rest as [|x r IH]; intros sorted; simpl.
  - now rewrite app_nil_r.
  - rewrite IH, insert_perm. apply Permutation_middle.
Qed.

Lemma sortSlice_perm (s : list Param) : Permutation (sortSlice less s) s.
Proof. unfold sortSlice. apply insertionSort_perm. Qed.

Lemma insert_Forall (P : Param -> Prop) (x : Param) (s : list Param) :
  P x -> Forall P s -> Forall P (insert less x s).
Proof.
  intros Hx Hs.
  apply (Permutation_Forall (Permutation_sym (insert_perm x s))).
  now constructor.
Qed.

Lemma insert_sorted (x : Param) (s : list Param) :
  StronglySorted byName s -> StronglySorted byName (insert less x s).
Proof.
  induction 1 as [|y r Hr IH Hy]; simpl.
  - repeat constructor.
  - destruct (less x y) eqn:Hxy.
    + assert (Hle : byName x y) by now apply string_ltb_leb.
      constructor; [now constructor|].
      constructor; [exact Hle|].
      eapply Forall_impl; [|exact Hy].
      intros z Hz. eapply byName_trans; eassumption.
    + constructor; [exact IH|].
      apply insert_Forall; [|exact Hy].
      now apply string_ltb_false_leb.
Qed.

Lemma insertionSort_sorted (sorted rest : list Param) :
  StronglySorted byName sorted ->
  StronglySorted byName (insertionSort less sorted rest).
Proof.
  revert sorted. induction rest as [|x r IH]; intros sorted Hs; simpl.
  - exact Hs.
  - apply IH. now apply insert_sorted.
Qed.

Lemma sortSlice_sorted (s : list Param) :
  StronglySorted byName (sortSlice less s).
Proof. apply insertionSort_sorted. constructor. Qed.

(** An element that nothing in the sorted part exceeds goes to the end. *)
Lemma insert_at_end (x : Param) (s : list Param) :
  Forall (fun y => byName y x) s -> insert less x s = s ++ [x].
Proof.
  induction 1 as [|y r Hy _ IH]; simpl; [reflexivity|].
  unfold less at 1. rewrite (string_leb_ltb_false _ _ Hy). now rewrite IH.
Qed.

Lemma sorted_app_last (s : list Param) (x : Param) (r : list Param) :
  StronglySorted byName (s ++ x :: r) -> Forall (fun y => byName y x) s.
Proof.
  induction s as [|y s IH]; simpl; intros H; [constructor|].
  apply StronglySorted_inv in H. destruct H as [Hs Hy].
  constructor; [|now apply IH].
  rewrite Forall_forall in Hy. apply Hy. apply in_or_app. right. now left.
Qed.

Lemma insertionSort_sorted_id (sorted rest : list Param) :
  StronglySorted byName (sorted ++ rest) ->
  insertionSort less sorted rest = sorted ++ rest.
Proof.
  revert sorted. induction rest as [|x r IH]; intros sorted H; simpl.
  - now rewrite app_nil_r.
  - rewrite (insert_at_end x sorted (sorted_app_last _ _ _ H)).
    rewrite IH; rewrite <- app_assoc; simpl; [reflexivity | exact H].
Qed.

Lemma sortSlice_sorted_id (s : list Param) :
  StronglySorted byName s -> sortSlice less s = s.
Proof. intros H. unfold sortSlice. now rewrite insertionSort_sorted_id. Qed.

(** With distinct names there is one sorted arrangement only: whatever
    algorithm [sort.Slice] runs on a longer slice, its result is the one of the
    insertion sort. *)
Lemma sorted_arrangement_unique (l1 : list Param) :
  forall l2 : list Param,
    StronglySorted byName l1 -> StronglySorted byName l2 ->
    Permutation l1 l2 -> NoDup (map Name l1) -> l1 = l2.
Proof.
  induction l1 as [|a l1 IH]; intros l2 H1 H2 Hp Hnd.
  - now apply Permutation_nil in Hp.
  - destruct l2 as [|b l2];
      [now apply Permutation_sym, Permutation_nil in Hp|].
    apply StronglySorted_inv in H1. destruct H1 as [H1 Ha].
    apply StronglySorted_inv in H2. destruct H2 as [H2 Hb].
    rewrite Forall_forall in Ha, Hb.
    simpl in Hnd. apply NoDup_cons_iff in Hnd. destruct Hnd as [Hna Hnd].
    assert (Hab : a = b).
    { assert (Hin_b : In b (a :: l1))
        by (eapply Permutation_in;
            [apply Permutation_sym; exact Hp | now left]).
      assert (Hin_a : In a (b :: l2))
        by (eapply Permutation_in; [exact Hp | now left]).
      destruct Hin_b as [E|Hin_b]; [exact E|].
      destruct Hin_a as [E|Hin_a]; [now symmetry|].
      exfalso. apply Hna.
      rewrite (String.leb_antisym _ _ (Ha b Hin_b) (Hb a Hin_a)).
      now apply in_map. }
    subst b. f_equal. apply IH; try assumption.
    now apply Permutation_cons_inv in Hp.
Qed.

Lemma any_sort_agrees (sort' : list Param -> list Param) (l : list Param) :
  StronglySorted byName (sort' l) -> Permutation (sort' l) l ->
  NoDup (map Name l) -> sort' l = sortSlice less l.
Proof.
  intros Hs Hp Hnd.
  apply sorted_arrangement_unique.
  - exact Hs.
  - apply sortSlice_sorted.
  - rewrite Hp. symmetry. apply sortSlice_perm.
  - eapply Permutation_NoDup; [|exact Hnd].
    apply Permutation_map. symmetry. exact Hp.
Qed.

End SortFacts.

(* ================================================================== *)
(** ** Reconciliation of a fetched listing with the latest write *)
(* ================================================================== *)

Section ReconcileFacts.
Import GoLib Listing.

Lemma replaceFirst_no_match (W : Param) (L : list Param) :
  (forall p, In p L -> Name p <> Name W) -> replaceFirst W L = L.
Proof.
  induction L as [|p L IH]; simpl; intros H; [reflexivity|].
  destruct (String.eqb_spec (Name p) (Name W)) as [E|_].
  - exfalso. apply (H p); [now left | exact E].
  - rewrite IH; [reflexivity|]. intros q Hq. apply H. now right.
Qed.

Lemma replaceFirst_first_match (W e : Param) (l1 l2 : list Param) :
  Name e = Name W ->
  (forall p, In p l1 -> Name p <> Name W) ->
  replaceFirst W (l1 ++ e :: l2) = l1 ++ W :: l2.
Proof.
  intros He. induction l1 as [|p l1 IH]; simpl; intros H.
  - rewrite He, String.eqb_refl. reflexivity.
  - destruct (String.eqb_spec (Name p) (Name W)) as [E|_].
    + exfalso. apply (H p); [now left | exact E].
    + rewrite IH; [reflexivity|]. intros q Hq. apply H. now right.
Qed.

Lemma replaceFirst_cases (W : Param) (L : list Param) :
  replaceFirst W L = L
  \/ exists l1 e l2,
       L = l1 ++ e :: l2 /\ Name e = Name W
       /\ replaceFirst W L = l1 ++ W :: l2.
Proof.
  induction L as [|p L IH]; simpl; [now left|].
  destruct (String.eqb_spec (Name p) (Name W)) as [E|_].
  - right. exists [], p, L. simpl. auto.
  - destruct IH as [IH | (l1 & e & l2 & HL & He & IH)].
    + left. now rewrite IH.
    + right. exists (p :: l1), e, l2. simpl. rewrite IH, HL. auto.
Qed.

Lemma replaceFirst_length (W : Param) (L : list Param) :
  List.length (replaceFirst W L) = List.length L.
Proof.
  induction L as [|p L IH]; simpl; [reflexivity|].
  destruct (String.eqb (Name p) (Name W)); simpl; congruence.
Qed.

(** With unique names the first match is the only one. *)
Lemma unique_name_first (W e : Param) (l1 l2 : list Param) :
  NoDup (map Name (l1 ++ e :: l2)) -> Name e = Name W ->
  forall p, In p l1 -> Name p <> Name W.
Proof.
  intros Hnd He p Hp E.
  rewrite map_app in Hnd. simpl in Hnd.
  apply NoDup_remove_2 in Hnd. apply Hnd.
  apply in_or_app. left. rewrite He, <- E. now apply in_map.
Qed.

(** C4.  For every fetched listing [L] and cached latest write [W]:
    when an entry of [L] carries the name of [W], the reconciled listing is
    [L] with that entry (the first of that name) replaced by [W], every other
    entry kept, then sorted; when no entry carries the name it is [L] sorted;
    in every case it is the sort of a list that is [L] or differs from [L]
    in one entry, replaced by [W].  When the names of [L] are distinct the
    entry replaced is the one entry of that name.  Sorted means: the entries
    of that list, each as often as there, in ascending order of their
    names. *)
Theorem C4_reconcile_substitutes_then_sorts (L : list Param) (W : Param) :
  (forall l1 e l2,
      L = l1 ++ e :: l2 -> Name e = Name W ->
      (forall p, In p l1 -> Name p <> Name W) ->
      reconcile (Some W) L = sortSlice less (l1 ++ W :: l2)
      /\ Permutation (reconcile (Some W) L) (W :: l1 ++ l2)
      /\ StronglySorted byName (reconcile (Some W) L))
  /\ ((forall p, In p L -> Name p <> Name W) ->
      reconcile (Some W) L = sortSlice less L
      /\ Permutation (reconcile (Some W) L) L
      /\ StronglySorted byName (reconcile (Some W) L))
  /\ (exists L',
        reconcile (Some W) L = sortSlice less L'
        /\ Permutation (reconcile (Some W) L) L'
        /\ StronglySorted byName (reconcile (Some W) L)
        /\ (L' = L
            \/ exists l1 e l2,
                 L = l1 ++ e :: l2 /\ Name e = Name W /\ L' = l1 ++ W :: l2))
  /\ (NoDup (map Name L) ->
      forall l1 e l2,
        L = l1 ++ e :: l2 -> Name e = Name W ->
        reconcile (Some W) L = sortSlice less (l1 ++ W :: l2)
        /\ Permutation (reconcile (Some W) L) (W :: l1 ++ l2)
        /\ StronglySorted byName (reconcile (Some W) L)).
Proof.
  assert (Hsorted : StronglySorted byName (reconcile (Some W) L))
    by apply sortSlice_sorted.
  assert (Hfirst : forall l1 e l2,
             L = l1 ++ e :: l2 -> Name e = Name W ->
             (forall p, In p l1 -> Name p <> Name W) ->
             reconcile (Some W) L = sortSlice less (l1 ++ W :: l2)
             /\ Permutation (reconcile (Some W) L) (W :: l1 ++ l2)).
  { intros l1 e l2 HL He Hl1. unfold reconcile, applyLatest. subst L.
    rewrite replaceFirst_first_match by assumption.
    split; [reflexivity|].
    rewrite sortSlice_perm. symmetry. apply Permutation_middle. }
  split; [|split; [|split]].
  - intros l1 e l2 HL He Hl1.
    destruct (Hfirst l1 e l2 HL He Hl1) as [E HP]. auto.
  - intros H. unfold reconcile, applyLatest.
    rewrite replaceFirst_no_match by assumption.
    split; [reflexivity|]. split; [apply sortSlice_perm|].
    apply sortSlice_sorted.
  - unfold reconcile, applyLatest in *.
    destruct (replaceFirst_cases W L) as [E | (l1 & e & l2 & HL & He & E)].
    + exists L. rewrite E.
      split; [reflexivity|]. split; [apply sortSlice_perm|].
      split; [apply sortSlice_sorted | auto].
    + exists (l1 ++ W :: l2). rewrite E.
      split; [reflexivity|]. split; [apply sortSlice_perm|].
      split; [apply sortSlice_sorted|].
      right. exists l1, e, l2. auto.
  - intros Hnd l1 e l2 HL He.
    destruct (Hfirst l1 e l2 HL He) as [E HP]; [|auto].
    subst L. now apply (unique_name_first W e l1 l2 Hnd He).
Qed.

Lemma C4_reconcile_witness :
  reconcile (Some (mkParam "/app/test/B" "3" "String"))
            [mkParam "/app/test/C" "5" "String";
             mkParam "/app/test/A" "1" "String";
             mkParam "/app/test/B" "2" "String"]
  = [mkParam "/app/test/A" "1" "String";
     mkParam "/app/test/B" "3" "String";
     mkParam "/app/test/C" "5" "String"]
  /\ reconcile (Some (mkParam "/app/test/D" "3" "String"))
               [mkParam "/app/test/C" "5" "String";
                mkParam "/app/test/A" "1" "String";
                mkParam "/app/test/B" "2" "String"]
  = [mkParam "/app/test/A" "1" "String";
     mkParam "/app/test/B" "2" "String";
     mkParam "/app/test/C" "5" "String"].
Proof.
  split.
  - destruct (C4_reconcile_substitutes_then_sorts
                [mkParam "/app/test/C" "5" "String";
                 mkParam "/app/test/A" "1" "String";
                 mkParam "/app/test/B" "2" "String"]
                (mkParam "/app/test/B" "3" "String")) as [Hmatch _].
    destruct (Hmatch [mkParam "/app/test/C" "5" "String";
                      mkParam "/app/test/A" "1" "String"]
                     (mkParam "/app/test/B" "2" "String") []
                     eq_refl eq_refl) as [E _].
    + intros p [<- | [<- | []]]; simpl; discriminate.
    + rewrite E. reflexivity.
  - destruct (C4_reconcile_substitutes_then_sorts
                [mkParam "/app/test/C" "5" "String";
                 mkParam "/app/test/A" "1" "String";
                 mkParam "/app/test/B" "2" "String"]
                (mkParam "/app/test/D" "3" "String")) as (_ & Hnone & _).
    destruct Hnone as [E _]; [|rewrite E; reflexivity].
    intros p [<- | [<- | [<- | []]]]; simpl; discriminate.
Defined.

(** Without a cached write the listing is only sorted. *)
Lemma reconcile_without_latest (L : list Param) :
  reconcile None L = sortSlice less L.
Proof. reflexivity. Qed.

(** C9.  The reconciled listing is sorted ascending by full name, in the
    byte order of Go's string comparison, and sorting it once more gives the
    same listing. *)
Theorem C9_reconciled_listing_sorted (latestParam : option Param)
                                     (L : list Param) :
  StronglySorted byName (reconcile latestParam L)
  /\ sortSlice less (reconcile latestParam L) = reconcile latestParam L.
Proof.
  assert (H : StronglySorted byName (reconcile latestParam L))
    by apply sortSlice_sorted.
  split; [exact H | now apply sortSlice_sorted_id].
Qed.

(** The comparison is case-sensitive: upper case sorts before lower case. *)
Example sort_is_case_sensitive :
  map Name (reconcile None [mkParam "/p/alpha" "1" "String";
                            mkParam "/p/Zeta" "2" "String";
                            mkParam "/p/Alpha" "3" "String"])
  = ["/p/Alpha"; "/p/Zeta"; "/p/alpha"].
Proof. reflexivity. Qed.

End ReconcileFacts.

(* ================================================================== *)
(** ** The formatted lines of a listing *)
(* ================================================================== *)

Section FormatFacts.
Import GoLib Env.

(** A [for ... range] loop that appends one line per element. *)
Lemma range_append_map {A B : Type} (f : A -> B) (l : list A) (acc : list B) :
  fold_left (fun formatted x => formatted ++ [f x]) l acc = acc ++ map f l.
Proof.
  revert acc. induction l as [|x l IH]; intros acc; simpl.
  - now rewrite app_nil_r.
  - rewrite IH, <- app_assoc. reflexivity.
Qed.

Lemma Secure_formatParameters_nth (params : list Param) (secure : bool)
      (i : nat) (p : Param) :
  nth_error params i = Some p ->
  nth_error (Secure.formatParameters params secure) i
  = Some (Sprintf_kv (lastField (Split (Name p) "/"%char))
            (if secure && String.eqb (Type_ p) "SecureString"
             then "******" else Value p)).
Proof.
  intros H. unfold Secure.formatParameters.
  rewrite range_append_map. simpl. rewrite nth_error_map, H. reflexivity.
Qed.

Lemma Manager_formatParameters_nth (m : Manager.SSMManager)
      (params : list Param) (i : nat) (p : Param) :
  nth_error params i = Some p ->
  nth_error (Manager.formatParameters m params) i
  = Some (Sprintf_kv (TrimPrefix (Name p) (Manager.prefix m)) (Value p)).
Proof.
  intros H. unfold Manager.formatParameters.
  rewrite range_append_map. simpl. rewrite nth_error_map, H. reflexivity.
Qed.

(** C7.  One line per entry, in order.  In [Secure], with secure mode on,
    the line of a "SecureString" entry ends in the placeholder ["******"]
    whatever the value is; the line of any other entry, and every line when
    secure mode is off, ends in the entry's value.  [Manager] has no secure
    mode and always prints the value. *)
Theorem C7_masking (params : list Param) (i : nat) (p : Param) :
  nth_error params i = Some p ->
  let shown := lastField (Split (Name p) "/"%char) in
  (forall secure,
      List.length (Secure.formatParameters params secure) = List.length params)
  /\ (Type_ p = "SecureString" ->
      nth_error (Secure.formatParameters params true) i
      = Some (shown ++ " = ******")%string)
  /\ (Type_ p <> "SecureString" ->
      forall secure,
        nth_error (Secure.formatParameters params secure) i
        = Some (shown ++ " = " ++ Value p)%string)
  /\ nth_error (Secure.formatParameters params false) i
     = Some (shown ++ " = " ++ Value p)%string
  /\ (forall m,
        nth_error (Manager.formatParameters m params) i
        = Some (TrimPrefix (Name p) (Manager.prefix m) ++ " = " ++ Value p)%string).
Proof.
  intros H shown. repeat split.
  - intros secure. unfold Secure.formatParameters.
    rewrite range_append_map. simpl. apply length_map.
  - intros HT. rewrite (Secure_formatParameters_nth _ _ _ _ H).
    rewrite HT. reflexivity.
  - intros HT secure. rewrite (Secure_formatParameters_nth _ _ _ _ H).
    apply String.eqb_neq in HT. rewrite HT, andb_false_r. reflexivity.
  - rewrite (Secure_formatParameters_nth _ _ _ _ H). reflexivity.
  - intros m. now rewrite (Manager_formatParameters_nth _ _ _ _ H).
Qed.

Lemma C7_masking_witness :
  Secure.formatParameters
    [mkParam "/app/test/A" "1" "String";
     mkParam "/app/test/B" "hunter2" "SecureString"] true
  = ["A = 1"; "B = ******"]
  /\ nth_error
       (Secure.formatParameters
          [mkParam "/app/test/A" "1" "String";
           mkParam "/app/test/B" "hunter2" "SecureString"] true) 1
     = Some "B = ******".
Proof.
  split; [reflexivity|].
  destruct (C7_masking
              [mkParam "/app/test/A" "1" "String";
               mkParam "/app/test/B" "hunter2" "SecureString"] 1
              (mkParam "/app/test/B" "hunter2" "SecureString") eq_refl)
    as (_ & Hsecret & _).
  rewrite (Hsecret eq_refl). reflexivity.
Defined.

End FormatFacts.

(* ================================================================== *)
(** ** Writes: one attempt, and the bounded retry *)
(* ================================================================== *)

Section WriteFacts.
Import GoLib Env Obs.

Lemma puts_app (a b : list Event) : puts (a ++ b) = puts a ++ puts b.
Proof. apply flat_map_app. Qed.

Lemma sleeps_app (a b : list Event) : sleeps (a ++ b) = sleeps a ++ sleeps b.
Proof. apply flat_map_app. Qed.

Lemma gets_app (a b : list Event) : gets (a ++ b) = gets a ++ gets b.
Proof. apply flat_map_app. Qed.

Lemma puts_failedAttempts (k : nat) (input : PutParameterInput) (ms : nat) :
  puts (failedAttempts k input ms) = repeat input k.
Proof. induction k as [|k IH]; simpl; [reflexivity | now rewrite IH]. Qed.

Lemma sleeps_failedAttempts (k : nat) (input : PutParameterInput) (ms : nat) :
  sleeps (failedAttempts k input ms) = repeat ms k.
Proof. induction k as [|k IH]; simpl; [reflexivity | now rewrite IH]. Qed.

(** A call that meets a fault fails with its message and changes nothing. *)
Lemma PutParameter_fault (input : PutParameterInput) (w : World)
      (msg : string) (rest : list (option string)) :
  faults w = Some msg :: rest ->
  PutParameter input w
  = (Some (Errorf msg), answered (CallPutParameter input) w).
Proof.
  intros H. unfold PutParameter, nextFault, emit, answered. simpl.
  rewrite H. reflexivity.
Qed.

(** A call that meets no fault and may overwrite succeeds. *)
Lemma PutParameter_overwrite_ok (input : PutParameterInput) (w : World) :
  failuresAhead (faults w) = 0 -> Overwrite input = true ->
  exists s,
    PutParameter input w
    = (None, setStore s (answered (CallPutParameter input) w)).
Proof.
  intros H Ho. unfold PutParameter, nextFault, emit, answered. simpl.
  destruct (faults w) as [|[msg|] rest]; simpl in *; try discriminate;
    rewrite Ho; destruct (exists_ _ _); eexists; reflexivity.
Qed.

Lemma retryLoop_closed_form (n : nat) (input : PutParameterInput) (w : World) :
  Overwrite input = true ->
  let k := failuresAhead (faults w) in
  let failure :=
    Errorf ("failed to update parameter after "
            ++ Sprintf_d Manager.maxRetries ++ " attempts")%string in
  (if (k <? n)%nat
   then fst (Manager.retryLoop n input w) = None
   else fst (Manager.retryLoop n input w) = Some failure)
  /\ trace (snd (Manager.retryLoop n input w))
     = trace w ++ failedAttempts (Nat.min k n) input Manager.retryDelay
               ++ (if (k <? n)%nat then [CallPutParameter input] else []).
Proof.
  intros Ho. revert w. induction n as [|n IH]; intros w; simpl.
  - rewrite Nat.min_0_r. simpl. now rewrite app_nil_r.
  - destruct (faults w) as [|[msg|] rest] eqn:Hf.
    + destruct (PutParameter_overwrite_ok input w) as [s ->];
        [now rewrite Hf | exact Ho |]. simpl. auto.
    + rewrite (PutParameter_fault input w msg rest Hf).
      specialize (IH (emit (Sleep Manager.retryDelay)
                           (answered (CallPutParameter input) w))).
      simpl in IH. rewrite Hf in IH. simpl in IH.
      destruct IH as [IH1 IH2]. simpl.
      change (S (failuresAhead rest) <=? n)%nat
        with (failuresAhead rest <? n)%nat.
      split; [exact IH1|].
      rewrite IH2, <- !app_assoc. reflexivity.
    + destruct (PutParameter_overwrite_ok input w) as [s ->];
        [now rewrite Hf | exact Ho |]. simpl. auto.
Qed.

End WriteFacts.

Section RetryBound.
Import GoLib Env Obs.

(** C3, as amended.  [Manager.updateParameterWithRetry] makes at most 5
    write attempts, every failed one followed by a 200 ms sleep; it returns
    success at the first attempt that succeeds, and after 5 failed attempts
    it returns the error "failed to update parameter after 5 attempts".
    [Secure.updateParameter] makes exactly one attempt, without any sleep,
    and returns the service's error as it is. *)
Theorem C3_retry_bound (name value paramType : string) (w : World) :
  let input := mkPut name value paramType true in
  let k := failuresAhead (faults w) in
  let m := Manager.updateParameterWithRetry name value paramType w in
  let s := Secure.updateParameter name value paramType w in
  (exists delta,
      trace (snd m) = trace w ++ delta
      /\ delta = failedAttempts (Nat.min k 5) input 200
                 ++ (if (k <? 5)%nat then [CallPutParameter input] else [])
      /\ puts delta = repeat input (Nat.min (S k) 5)
      /\ sleeps delta = repeat 200 (Nat.min k 5))
  /\ fst m = (if (k <? 5)%nat then None
              else Some (Errorf "failed to update parameter after 5 attempts"))
  /\ trace (snd s) = trace w ++ [CallPutParameter input]
  /\ fst s = match faults w with
             | Some msg :: _ => Some (Errorf msg)
             | _ => None
             end.
Proof.
  intros input k m s.
  destruct (retryLoop_closed_form Manager.maxRetries input w eq_refl)
    as [Herr Htrace].
  fold k in Herr, Htrace.
  change (Manager.retryLoop Manager.maxRetries input w) with m in Herr, Htrace.
  change Manager.maxRetries with 5 in Herr, Htrace.
  change Manager.retryDelay with 200 in Htrace.
  repeat split.
  - eexists. split; [exact Htrace|]. split; [reflexivity|].
    rewrite puts_app, sleeps_app, puts_failedAttempts, sleeps_failedAttempts.
    destruct (Nat.ltb_spec k 5) as [Hlt|Hge].
    + rewrite (Nat.min_l k 5) by lia.
      replace (Nat.min (S k) 5) with (S k) by lia.
      change (puts [CallPutParameter input]) with [input].
      change (sleeps [CallPutParameter input]) with (@nil nat).
      rewrite app_nil_r. split; [|reflexivity].
      cbn [repeat]. symmetry. apply repeat_cons.
    + rewrite (Nat.min_r k 5) by lia.
      replace (Nat.min (S k) 5) with 5 by lia.
      change (puts []) with (@nil PutParameterInput).
      change (sleeps []) with (@nil nat).
      rewrite !app_nil_r. split; reflexivity.
  - destruct (k <? 5)%nat; exact Herr.
  - subst s. unfold Secure.updateParameter, PutParameter, nextFault. simpl.
    destruct (faults w) as [|[msg|] rest]; simpl;
      try destruct (exists_ name (store w)); reflexivity.
  - subst s. unfold Secure.updateParameter, PutParameter, nextFault. simpl.
    destruct (faults w) as [|[msg|] rest]; simpl;
      try destruct (exists_ name (store w)); reflexivity.
Qed.

(** C3, as stated, fails on [Secure]: a write that fails is attempted once,
    not 5 times, nothing sleeps, and the error does not name a count; the
    edit turn around it goes back to the listing after that one attempt. *)
Lemma C3_secure_persist_single_attempt :
  let failing := repeat (Some "ThrottlingException") 5 in
  let w := mkWorld [mkParam "/app/test/A" "1" "String"] failing [] [] in
  let r := Secure.updateParameter "/app/test/A" "2" "String" w in
  let turn :=
    Secure.editSelected "/app/test/" false false
      [mkParam "/app/test/A" "1" "String"] 1 "A = 1" None
      (mkWorld [mkParam "/app/test/A" "1" "String"] failing [Typed "2"] []) in
  fst r = Some (Errorf "ThrottlingException")
  /\ puts (trace (snd r)) = [mkPut "/app/test/A" "2" "String" true]
  /\ List.length (puts (trace (snd r))) <> 5
  /\ sleeps (trace (snd r)) = []
  /\ fst turn = Continue None
  /\ List.length (puts (trace (snd turn))) = 1.
Proof. vm_compute. repeat split; discriminate. Qed.

End RetryBound.

(* ================================================================== *)
(** ** The prompts, answered *)
(* ================================================================== *)

Section PromptFacts.
Import GoLib Env Obs.

Lemma PromptRun_typed (label line : string) (w : World) (rest : list Answer) :
  script w = Typed line :: rest ->
  PromptRun label w = (Ok line, asked (AskPrompt label) w).
Proof.
  intros H. unfold PromptRun, nextAnswer, emit, asked. simpl.
  rewrite H. reflexivity.
Qed.

Lemma PromptRun_interrupt (label : string) (w : World) (rest : list Answer) :
  script w = Interrupt :: rest ->
  PromptRun label w = (Err PromptInterrupt, asked (AskPrompt label) w).
Proof.
  intros H. unfold PromptRun, nextAnswer, emit, asked. simpl.
  rewrite H. reflexivity.
Qed.

Lemma SelectRun_chosen (items : list string) (index : nat) (item : string)
      (w : World) (rest : list Answer) :
  nth_error items index = Some item -> script w = Chosen index :: rest ->
  SelectRun items w = (Ok (index, item), asked (AskSelect items) w).
Proof.
  intros Hi H. unfold SelectRun, nextAnswer, emit, asked. simpl.
  rewrite H, Hi. reflexivity.
Qed.

Lemma SelectRun_interrupt (items : list string) (w : World)
      (rest : list Answer) :
  script w = Interrupt :: rest ->
  SelectRun items w = (Err PromptInterrupt, asked (AskSelect items) w).
Proof.
  intros H. unfold SelectRun, nextAnswer, emit, asked. simpl.
  rewrite H. reflexivity.
Qed.

Lemma Readline_typed (what line : string) (mask : bool) (w : World)
      (rest : list Answer) :
  script w = Typed line :: rest ->
  ReadlineWithDefault what mask w = (Ok line, asked (AskReadline what mask) w).
Proof.
  intros H. unfold ReadlineWithDefault, nextAnswer, emit, asked. simpl.
  rewrite H. reflexivity.
Qed.

Lemma Readline_interrupt (what : string) (mask : bool) (w : World)
      (rest : list Answer) :
  script w = Interrupt :: rest ->
  ReadlineWithDefault what mask w
  = (Err ReadlineInterrupt, asked (AskReadline what mask) w).
Proof.
  intros H. unfold ReadlineWithDefault, nextAnswer, emit, asked. simpl.
  rewrite H. reflexivity.
Qed.

End PromptFacts.

(* ================================================================== *)
(** ** Creating an entry *)
(* ================================================================== *)

Section CreateFacts.
Import GoLib Env Obs.

(** [Secure.createNewParameter] writes with [Overwrite: false]: on a name
    the store already holds the write is refused, an error comes back and
    the store is as it was. *)
Lemma Secure_create_refuses_existing_name
      (prefix name value paramType : string) (quiet : bool) (index : nat)
      (w : World) (rest : list Answer) :
  script w = Typed name :: Typed value :: Chosen index :: rest ->
  nth_error Secure.paramTypes index = Some paramType ->
  exists_ (prefix ++ name)%string (store w) = true ->
  let r := Secure.createNewParameter prefix quiet w in
  (exists e, fst r = Some e)
  /\ store (snd r) = store w
  /\ puts (trace (snd r))
     = puts (trace w) ++ [mkPut (prefix ++ name)%string value paramType false].
Proof.
  intros Hs Hi Hex r. subst r. unfold Secure.createNewParameter.
  rewrite (PromptRun_typed _ name w _ Hs).
  rewrite (PromptRun_typed _ value (asked _ w) (Chosen index :: rest))
    by (simpl; now rewrite Hs).
  rewrite (SelectRun_chosen _ index paramType _ rest Hi)
    by (simpl; now rewrite Hs).
  unfold PutParameter, nextFault, emit, asked. simpl.
  destruct (faults w) as [|[msg|] fl]; simpl; rewrite ?Hex; simpl;
    rewrite !puts_app; simpl; rewrite ?app_nil_r.
  all: split; [eexists; reflexivity | split; reflexivity].
Qed.

Lemma Secure_create_refuses_existing_name_sample :
  let w := mkWorld [mkParam "/app/test/A" "1" "String"] []
                   [Typed "A"; Typed "2"; Chosen 0] [] in
  let r := Secure.createNewParameter "/app/test/" true w in
  fst r = Some (Errorf ("failed to create parameter: " ++ refusal w)%string)
  /\ store (snd r) = [mkParam "/app/test/A" "1" "String"].
Proof. vm_compute. split; reflexivity. Qed.

(** C1 fails on [Manager]: [createNewParameter] goes through
    [updateParameterWithRetry], whose only write has [Overwrite: true].
    Creating "A" with value "2" under "/app/test/" when "/app/test/A" holds
    "1" succeeds and leaves "2" in the store. *)
Theorem C1_manager_create_overwrites_existing :
  let m := Manager.mkManager "/app/test/" None true in
  let w := mkWorld [mkParam "/app/test/A" "1" "String"] []
                   [Typed "A"; Typed "2"; Chosen 0] [] in
  let r := Manager.createNewParameter m w in
  exists_ "/app/test/A" (store w) = true
  /\ fst (fst r) = None
  /\ store (snd r) = [mkParam "/app/test/A" "2" "String"]
  /\ puts (trace (snd r)) = [mkPut "/app/test/A" "2" "String" true].
Proof. vm_compute. repeat split; reflexivity. Qed.

End CreateFacts.

(* ================================================================== *)
(** ** Reading the listing *)
(* ================================================================== *)

Section FetchFacts.
Import GoLib Env Obs.

(** The pagination always comes to an end within the fuel [fetchAll] gives. *)
Lemma fetchPages_enough (fuel : nat) :
  forall (prefix : string) (tok : option nat) (acc : list Param) (w : World),
    1 <= fuel ->
    List.length (children prefix (store w))
    <= match tok with Some n => n | None => 0 end + maxResults * fuel ->
    fetchPages fuel prefix tok acc w <> None.
Proof.
  induction fuel as [|fuel IH]; intros prefix tok acc w Hf Hlen; [lia|].
  simpl. unfold GetParametersByPath, nextFault, emit. simpl.
  destruct (faults w) as [|[msg|] fl]; simpl; try discriminate.
  - destruct (Nat.ltb_spec
                (match tok with Some n => n | None => 0 end + maxResults)
                (List.length (children prefix (store w)))) as [Hlt|Hge];
      [|discriminate].
    apply IH; simpl; unfold maxResults in *; lia.
  - destruct (Nat.ltb_spec
                (match tok with Some n => n | None => 0 end + maxResults)
                (List.length (children prefix (store w)))) as [Hlt|Hge];
      [|discriminate].
    apply IH; simpl; unfold maxResults in *; lia.
Qed.

Lemma fetchAll_returns (prefix : string) (w : World) :
  fetchAll prefix w <> None.
Proof.
  unfold fetchAll. apply fetchPages_enough; [lia|].
  unfold children, maxResults.
  pose proof (filter_length_le (isChild prefix) (store w)). lia.
Qed.

(** A fault on the first page is the error of the whole read. *)
Lemma fetchAll_fault (prefix msg : string) (w : World)
      (rest : list (option string)) :
  faults w = Some msg :: rest ->
  fetchAll prefix w
  = Some (Err (Errorf msg),
          answered (CallGetParametersByPath (mkGet prefix false true None)) w).
Proof.
  intros H. unfold fetchAll. simpl.
  unfold GetParametersByPath, nextFault, emit, answered. simpl.
  rewrite H. reflexivity.
Qed.

(** [Secure] and [Legacy] report a failed read and return from [main]. *)
Lemma Secure_read_error_halts (fuel : nat) (prefix : string)
      (debug secure : bool) (latestParam : option Param) (w w1 : World)
      (e : error) :
  fetchAll prefix w = Some (Err e, w1) ->
  Secure.loop (S fuel) prefix debug secure latestParam w
  = (Returned, Println ("Error fetching parameters: " ++ Error e)%string w1).
Proof.
  intros H. simpl. unfold Secure.iteration. rewrite H. reflexivity.
Qed.

Lemma Legacy_read_error_halts (fuel : nat) (prefix : string) (w w1 : World)
      (e : error) :
  fetchAll prefix w = Some (Err e, w1) ->
  Legacy.loop (S fuel) prefix w
  = (Returned, Println ("Error fetching parameters: " ++ Error e)%string w1).
Proof.
  intros H. simpl. unfold Legacy.iteration. rewrite H. reflexivity.
Qed.

(** [Manager] logs a failed read and runs the next turn of its loop. *)
Lemma Manager_read_error_loops (fuel : nat) (m : Manager.SSMManager)
      (w w1 : World) (e : error) :
  Manager.fetchParameters m w = Some (Err e, w1) ->
  Manager.loop (S fuel) m w
  = Manager.loop fuel m
      (emit (LogPrintf ("Error: error fetching parameters: " ++ Error e)%string)
            w1).
Proof.
  intros H. simpl. unfold Manager.run. rewrite H. reflexivity.
Qed.

(** C2 fails on [Manager]: with the first read failing, [main] logs the
    error and reads again; the session only ends when the user picks
    "Quit" in the menu of the second turn. *)
Theorem C2_manager_reads_again_after_read_error :
  let get := mkGet "/app/test/" false true None in
  let w := mkWorld [] [Some "AccessDeniedException"] [Chosen 1] [] in
  let r := Manager.main 2 "/app/test/" true w in
  fst (fst (Manager.main 1 "/app/test/" true w)) = OutOfFuel
  /\ fst (fst r) = Returned
  /\ trace (snd r)
     = [CallGetParametersByPath get;
        LogPrintf "Error: error fetching parameters: AccessDeniedException";
        CallGetParametersByPath get;
        AskSelect ["Create new variable"; "Quit"]]
  /\ gets (trace (snd r)) = [get; get].
Proof. vm_compute. repeat split; reflexivity. Qed.

End FetchFacts.

(* ================================================================== *)
(** ** Interrupts *)
(* ================================================================== *)

Section InterruptFacts.
Import GoLib Env Obs.

Local Ltac same_puts :=
  simpl; rewrite ?puts_app; simpl; rewrite ?app_nil_r; reflexivity.

(** [Secure]: ctrl+c in the menu ends [main]. *)
Lemma Secure_menu_interrupt_quits (fuel : nat) (prefix : string)
      (debug secure : bool) (latestParam : option Param)
      (w w1 : World) (params : list Param) (rest : list Answer) :
  fetchAll prefix w = Some (Ok params, w1) ->
  script w1 = Interrupt :: rest ->
  Secure.loop (S fuel) prefix debug secure latestParam w
  = (Returned,
     Println (String (ascii_of_nat 10) "Quitting...")
       (asked (AskSelect (secureMenu secure
                            (Listing.reconcile latestParam params))) w1)).
Proof.
  intros Hf Hs. simpl. unfold Secure.iteration. rewrite Hf.
  rewrite (SelectRun_interrupt _ w1 rest Hs). reflexivity.
Qed.

(** [Secure]: ctrl+c at the new value goes back to the listing; nothing was
    written and the cache is as before. *)
Lemma Secure_edit_interrupt_continues (prefix : string) (debug secure : bool)
      (params : list Param) (index : nat) (result : string)
      (latestParam : option Param) (selected : Param) (w : World)
      (rest : list Answer) :
  nth_error params (index - 1) = Some selected ->
  script w = Interrupt :: rest ->
  let r := Secure.editSelected prefix debug secure params index result
                               latestParam w in
  fst r = Continue latestParam
  /\ store (snd r) = store w
  /\ puts (trace (snd r)) = puts (trace w).
Proof.
  intros Hn Hs r. subst r. unfold Secure.editSelected. rewrite Hn.
  destruct debug, secure;
    (erewrite Readline_interrupt by (simpl; exact Hs));
    (split; [reflexivity | split; [reflexivity | same_puts]]).
Qed.

(** [Secure]: ctrl+c at any of the three prompts of a creation gives up the
    creation; nothing was written. *)
Lemma Secure_create_interrupt_abandons (prefix : string) (quiet : bool)
      (w : World) (name value : string) (rest : list Answer) :
  script w = Interrupt :: rest
  \/ script w = Typed name :: Interrupt :: rest
  \/ script w = Typed name :: Typed value :: Interrupt :: rest ->
  let r := Secure.createNewParameter prefix quiet w in
  (exists e, fst r = Some e)
  /\ store (snd r) = store w
  /\ puts (trace (snd r)) = puts (trace w).
Proof.
  intros Hs r. subst r. unfold Secure.createNewParameter.
  destruct Hs as [Hs | [Hs | Hs]].
  - rewrite (PromptRun_interrupt _ w rest Hs).
    split; [eexists; reflexivity | split; [reflexivity | same_puts]].
  - rewrite (PromptRun_typed _ name w _ Hs).
    rewrite (PromptRun_interrupt _ (asked _ w) rest)
      by (simpl; now rewrite Hs).
    split; [eexists; reflexivity | split; [reflexivity | same_puts]].
  - rewrite (PromptRun_typed _ name w _ Hs).
    rewrite (PromptRun_typed _ value (asked _ w) (Interrupt :: rest))
      by (simpl; now rewrite Hs).
    rewrite (SelectRun_interrupt _ _ rest) by (simpl; now rewrite Hs).
    split; [eexists; reflexivity | split; [reflexivity | same_puts]].
Qed.

(** [Manager]: ctrl+c in a creation or at the new value is an error that
    [main] logs before its next turn; nothing was written. *)
Lemma Manager_subflow_interrupt_abandons (m : Manager.SSMManager)
      (params : list Param) (selection : string) (param : Param)
      (w : World) (rest : list Answer) :
  script w = Interrupt :: rest ->
  find (fun p => String.eqb (Name p) (Manager.prefix m
          ++ SplitN2_first " = " selection)%string) params = Some param ->
  let c := Manager.createNewParameter m w in
  let u := Manager.updateParameter m params selection w in
  fst c = (Some PromptInterrupt, m)
  /\ store (snd c) = store w /\ puts (trace (snd c)) = puts (trace w)
  /\ fst u = (Some (Errorf "update cancelled"), m)
  /\ store (snd u) = store w /\ puts (trace (snd u)) = puts (trace w).
Proof.
  intros Hs Hfind c u. subst c u.
  unfold Manager.createNewParameter, Manager.promptForInput.
  rewrite (PromptRun_interrupt _ w rest Hs).
  unfold Manager.updateParameter. rewrite Hfind.
  unfold Manager.promptForNewValue.
  destruct (Manager.quiet m); simpl negb; cbv iota;
    (erewrite Readline_interrupt by (simpl; exact Hs));
    repeat split; same_puts.
Qed.

(** [Manager]: ctrl+c in the menu is logged like any other error and the
    loop goes on with the next read. *)
Lemma Manager_menu_interrupt_loops (fuel : nat) (m : Manager.SSMManager)
      (w w1 : World) (params : list Param) (rest : list Answer) :
  Manager.fetchParameters m w = Some (Ok params, w1) ->
  script w1 = Interrupt :: rest ->
  Manager.loop (S fuel) m w
  = Manager.loop fuel m
      (emit (LogPrintf "Error: error prompting for action: ^C")
            (asked (AskSelect (managerMenu m params)) w1)).
Proof.
  intros Hf Hs. simpl. unfold Manager.run. rewrite Hf.
  unfold Manager.promptForAction. fold (managerMenu m params).
  rewrite (SelectRun_interrupt _ w1 rest Hs). reflexivity.
Qed.

(** C8 fails on [Manager]: ctrl+c in the menu, whose label reads
    "ctrl+c: quit", does not end [main]; the error is logged and the
    listing is read and shown again, until "Quit" is picked. *)
Theorem C8_manager_menu_interrupt_does_not_quit :
  let get := mkGet "/app/test/" false true None in
  let menu := ["Create new variable"; "Quit"] in
  let w := mkWorld [] [] [Interrupt; Chosen 1] [] in
  let r := Manager.main 2 "/app/test/" true w in
  fst (fst (Manager.main 1 "/app/test/" true w)) = OutOfFuel
  /\ fst (fst r) = Returned
  /\ trace (snd r)
     = [CallGetParametersByPath get;
        AskSelect menu;
        LogPrintf "Error: error prompting for action: ^C";
        CallGetParametersByPath get;
        AskSelect menu].
Proof. vm_compute. repeat split; reflexivity. Qed.

End InterruptFacts.

(* ================================================================== *)
(** ** What an edit writes *)
(* ================================================================== *)

Section EditFacts.
Import GoLib Env Obs.

Lemma PutParameter_trace (input : PutParameterInput) (w : World) :
  trace (snd (PutParameter input w)) = trace w ++ [CallPutParameter input].
Proof.
  unfold PutParameter, nextFault, emit. simpl.
  destruct (faults w) as [|[msg|] fl]; simpl; try reflexivity;
    destruct (exists_ _ _); try destruct (Overwrite input); reflexivity.
Qed.

Lemma retryLoop_puts (n : nat) (input : PutParameterInput) (w : World) :
  exists j,
    puts (trace (snd (Manager.retryLoop n input w)))
    = puts (trace w) ++ repeat input j.
Proof.
  revert w. induction n as [|n IH]; intros w; simpl.
  - exists 0. simpl. now rewrite app_nil_r.
  - pose proof (PutParameter_trace input w) as Ht.
    destruct (PutParameter input w) as [[e|] w1]; simpl in Ht.
    + destruct (IH (emit (Sleep Manager.retryDelay) w1)) as [j Hj].
      exists (S j). rewrite Hj. simpl. rewrite Ht, !puts_app. simpl.
      rewrite app_nil_r, <- app_assoc. reflexivity.
    + exists 1. simpl. rewrite Ht, puts_app. reflexivity.
Qed.

Lemma ReadlineWithDefault_frame (what : string) (mask : bool) (w : World) :
  store (snd (ReadlineWithDefault what mask w)) = store w
  /\ puts (trace (snd (ReadlineWithDefault what mask w))) = puts (trace w).
Proof.
  unfold ReadlineWithDefault, nextAnswer, emit. simpl.
  destruct (script w) as [|[| |i|line] rest]; simpl;
    rewrite puts_app; simpl; rewrite app_nil_r; auto.
Qed.

Lemma Println_puts (text : string) (w : World) :
  puts (trace (Println text w)) = puts (trace w).
Proof. unfold Println. simpl. rewrite puts_app. simpl. apply app_nil_r. Qed.

(** [Manager.updateParameter] writes, if at all, under the name and with
    the type of an entry of the listing, and only that. *)
Lemma Manager_update_keeps_name_and_type (m : Manager.SSMManager)
      (params : list Param) (selection : string) (w : World) :
  let r := Manager.updateParameter m params selection w in
  puts (trace (snd r)) = puts (trace w)
  \/ exists param value j,
       In param params
       /\ Name param
          = (Manager.prefix m ++ SplitN2_first " = " selection)%string
       /\ puts (trace (snd r))
          = puts (trace w)
            ++ repeat (mkPut (Name param) value (Type_ param) true) j.
Proof.
  intros r. subst r. unfold Manager.updateParameter.
  destruct (find _ params) as [param|] eqn:Hfind; [|now left].
  apply find_some in Hfind. destruct Hfind as [Hin Hname].
  apply String.eqb_eq in Hname.
  set (w1 := if negb (Manager.quiet m) then _ else w).
  assert (H1 : puts (trace w1) = puts (trace w)).
  { subst w1. destruct (Manager.quiet m); simpl negb; cbv iota;
      rewrite ?Println_puts; reflexivity. }
  unfold Manager.promptForNewValue.
  destruct (ReadlineWithDefault_frame (Value param) false w1) as [_ H2].
  destruct (ReadlineWithDefault (Value param) false w1) as [[line|e] w2].
  - simpl in H2.
    destruct (String.eqb (TrimSpace line) (Value param)).
    + left. destruct (Manager.quiet m); cbn [fst snd negb];
        rewrite ?Println_puts, H2; exact H1.
    + right. exists param, (TrimSpace line).
      unfold Manager.updateParameterWithRetry.
      destruct (retryLoop_puts Manager.maxRetries
                  (mkPut (Manager.prefix m ++ SplitN2_first " = " selection)%string
                         (TrimSpace line) (Type_ param) true) w2) as [j Hj].
      exists j. split; [exact Hin|]. split; [exact Hname|].
      rewrite Hname, <- H1, <- H2, <- Hj.
      destruct (Manager.retryLoop _ _ w2) as [[e|] w3]; cbn [fst snd];
        destruct (Manager.quiet m); cbn [fst snd negb];
          rewrite ?Println_puts; reflexivity.
  - left. simpl in H2. destruct e; cbn [fst snd]; rewrite H2; exact H1.
Qed.

(** [Secure.editSelected] writes, if at all, once, with the type of the
    entry at the chosen index and under the name read off the menu line. *)
Lemma Secure_edit_keeps_type (prefix : string) (debug secure : bool)
      (params : list Param) (index : nat) (result : string)
      (latestParam : option Param) (selected : Param) (w : World) :
  nth_error params (index - 1) = Some selected ->
  let r := Secure.editSelected prefix debug secure params index result
                               latestParam w in
  puts (trace (snd r)) = puts (trace w)
  \/ exists value,
       puts (trace (snd r))
       = puts (trace w)
         ++ [mkPut (prefix ++ SplitN2_first " = " result)%string value
                   (Type_ selected) true].
Proof.
  intros Hn r. subst r. unfold Secure.editSelected. rewrite Hn.
  set (current := if secure then EmptyString else Value selected).
  set (w1 := if debug then _ else w).
  assert (H1 : puts (trace w1) = puts (trace w)).
  { subst w1. destruct debug, secure; rewrite ?Println_puts; reflexivity. }
  destruct (ReadlineWithDefault_frame current secure w1) as [_ H2].
  destruct (ReadlineWithDefault current secure w1) as [[line|e] w2].
  - simpl in H2.
    destruct (String.eqb (TrimSpace line) EmptyString
              || String.eqb (TrimSpace line) current).
    + left. destruct debug; cbn [fst snd]; rewrite ?Println_puts, H2;
        exact H1.
    + right. exists (TrimSpace line). unfold Secure.updateParameter.
      pose proof (PutParameter_trace
                    (mkPut (prefix ++ SplitN2_first " = " result)%string
                           (TrimSpace line) (Type_ selected) true) w2) as Ht.
      destruct (PutParameter _ w2) as [[e|] w3]; cbn [fst snd] in Ht |- *;
        destruct debug; rewrite ?Println_puts, Ht, puts_app, H2, H1;
          reflexivity.
  - left. simpl in H2.
    destruct e; cbn [fst snd]; destruct debug;
      rewrite ?Println_puts, H2; exact H1.
Qed.

(** [Legacy.updateParameter] types every write "SecureString". *)
Lemma Legacy_update_always_secure (name value : string) (w : World) :
  puts (trace (snd (Legacy.updateParameter name value w)))
  = puts (trace w) ++ [mkPut name value "SecureString" true].
Proof.
  unfold Legacy.updateParameter. rewrite PutParameter_trace, puts_app.
  reflexivity.
Qed.

(** C10 fails on [Legacy]: editing the "String" entry "/app/test/A" from
    "1" to "9" sends the type "SecureString", and the store then holds the
    entry with that type. *)
Theorem C10_legacy_edit_changes_type :
  let w := mkWorld [mkParam "/app/test/A" "1" "String"] []
                   [Chosen 0; Typed "9"] [] in
  let r := Legacy.iteration "/app/test/" w in
  fst r = Continue None
  /\ puts (trace (snd r)) = [mkPut "/app/test/A" "9" "SecureString" true]
  /\ store (snd r) = [mkParam "/app/test/A" "9" "SecureString"].
Proof. vm_compute. repeat split; reflexivity. Qed.

End EditFacts.

(* ================================================================== *)
(** ** An edit that changes nothing *)
(* ================================================================== *)

Section NoChangeFacts.
Import GoLib Env Obs.

(** C5, as amended.  The line the user submits is trimmed first.  In
    [Secure] no write is made, the cache stays and the loop continues when
    the trimmed line is empty or equals the text the prompt was filled with:
    the current value, or the empty string when secure mode is on.  In
    [Manager] the same holds when the trimmed line equals the current
    value. *)
Theorem C5_no_change_no_write (line : string) (w : World)
        (rest : list Answer) :
  script w = Typed line :: rest ->
  (forall (prefix : string) (debug secure : bool) (params : list Param)
          (index : nat) (result : string) (latestParam : option Param)
          (selected : Param),
      nth_error params (index - 1) = Some selected ->
      TrimSpace line = EmptyString
      \/ TrimSpace line = (if secure then EmptyString else Value selected) ->
      let r := Secure.editSelected prefix debug secure params index result
                                   latestParam w in
      fst r = Continue latestParam
      /\ store (snd r) = store w
      /\ puts (trace (snd r)) = puts (trace w))
  /\ (forall (m : Manager.SSMManager) (params : list Param)
             (selection : string) (param : Param),
      find (fun p => String.eqb (Name p)
                       (Manager.prefix m ++ SplitN2_first " = " selection)%string)
           params = Some param ->
      TrimSpace line = Value param ->
      let r := Manager.updateParameter m params selection w in
      fst r = (None, m)
      /\ store (snd r) = store w
      /\ puts (trace (snd r)) = puts (trace w)).
Proof.
  intros Hs. split.
  - intros prefix debug secure params index result latestParam selected
           Hn Hline r.
    subst r. unfold Secure.editSelected. rewrite Hn.
    assert (Hcond :
              String.eqb (TrimSpace line) EmptyString
              || String.eqb (TrimSpace line)
                   (if secure then EmptyString else Value selected) = true).
    { destruct Hline as [E|E]; rewrite E.
      - reflexivity.
      - now rewrite String.eqb_refl, orb_true_r. }
    destruct debug, secure;
      (erewrite Readline_typed by (simpl; exact Hs));
      rewrite Hcond; cbn [fst snd];
      rewrite ?Println_puts;
      (split; [reflexivity | split; [reflexivity|]]);
      simpl; rewrite ?puts_app; simpl; rewrite ?app_nil_r; reflexivity.
  - intros m params selection param Hfind Hline r.
    subst r. unfold Manager.updateParameter. rewrite Hfind.
    unfold Manager.promptForNewValue.
    destruct (Manager.quiet m); cbn [negb];
      (erewrite Readline_typed by (simpl; exact Hs));
      rewrite Hline, String.eqb_refl; cbn [fst snd];
      rewrite ?Println_puts;
      (split; [reflexivity | split; [reflexivity|]]);
      simpl; rewrite ?puts_app; simpl; rewrite ?app_nil_r; reflexivity.
Qed.

Lemma C5_no_change_no_write_witness :
  let entry := mkParam "/app/test/A" "1" "String" in
  let w := mkWorld [entry] [] [Typed " 1 "] [] in
  let nbsp := mkWorld [entry] [] [Typed (utf8 [49; 194; 160])] [] in
  fst (Secure.editSelected "/app/test/" false false [entry] 1 "A = 1" None w)
  = Continue None
  /\ puts (trace (snd (Manager.updateParameter
                         (Manager.mkManager "/app/test/" None true)
                         [entry] "A = 1" w))) = []
  /\ puts (trace (snd (Secure.editSelected "/app/test/" false false [entry]
                         1 "A = 1" None nbsp))) = []
  /\ puts (trace (snd (Manager.updateParameter
                         (Manager.mkManager "/app/test/" None true)
                         [entry] "A = 1" nbsp))) = [].
Proof.
  intros entry w nbsp.
  destruct (C5_no_change_no_write " 1 " w [] eq_refl) as [HS HM].
  destruct (C5_no_change_no_write (utf8 [49; 194; 160]) nbsp [] eq_refl)
    as [HS' HM'].
  split; [|split; [|split]].
  - destruct (HS "/app/test/" false false [entry] 1 "A = 1" None entry
                 eq_refl (or_intror eq_refl)) as [H _].
    exact H.
  - destruct (HM (Manager.mkManager "/app/test/" None true) [entry] "A = 1"
                 entry eq_refl eq_refl) as (_ & _ & H).
    exact H.
  - destruct (HS' "/app/test/" false false [entry] 1 "A = 1" None entry
                  eq_refl (or_intror eq_refl)) as (_ & _ & H).
    exact H.
  - destruct (HM' (Manager.mkManager "/app/test/" None true) [entry] "A = 1"
                  entry eq_refl eq_refl) as (_ & _ & H).
    exact H.
Defined.

(** [TrimSpace] on white space outside ASCII: a trailing U+00A0, a leading
    U+00A0 with a trailing U+2003, a line of U+3000 and U+2028 only; bytes
    that encode no white space stay (U+2020, a lone C2). *)
Example TrimSpace_outside_ASCII :
  TrimSpace (utf8 [49; 194; 160]) = "1"
  /\ TrimSpace (utf8 [194; 160; 57; 226; 128; 131]) = "9"
  /\ TrimSpace (utf8 [227; 128; 128; 32; 226; 128; 168]) = EmptyString
  /\ TrimSpace (utf8 [32; 120; 226; 128; 160; 32]) = utf8 [120; 226; 128; 160]
  /\ TrimSpace (utf8 [194; 32]) = utf8 [194]
  /\ TrimSpace "  a b  " = "a b".
Proof. vm_compute. repeat split; reflexivity. Qed.

(** C5 fails as stated: with secure mode on the prompt is filled with the
    empty string and the line is compared with that, so submitting the very
    value the entry has is written and cached. *)
Lemma C5_secure_mode_writes_identical_value :
  let entry := mkParam "/app/test/B" "hunter2" "SecureString" in
  let w := mkWorld [entry] [] [Chosen 1; Typed "hunter2"] [] in
  let r := Secure.iteration "/app/test/" false true None w in
  TrimSpace "hunter2" = Value entry
  /\ puts (trace (snd r)) = [mkPut "/app/test/B" "hunter2" "SecureString" true]
  /\ fst r = Continue (Some entry)
  /\ fst r <> Continue None.
Proof. vm_compute. repeat split; discriminate. Qed.

(** [Manager] has no test for the empty line: clearing the field and
    pressing enter asks the store to write the empty value. *)
Lemma Manager_empty_line_is_written :
  let entry := mkParam "/app/test/A" "1" "String" in
  let w := mkWorld [entry] [] [Typed ""] [] in
  let r := Manager.updateParameter (Manager.mkManager "/app/test/" None true)
                                   [entry] "A = 1" w in
  puts (trace (snd r)) = [mkPut "/app/test/A" "" "String" true].
Proof. reflexivity. Qed.

End NoChangeFacts.

(* ================================================================== *)
(** ** The latest-write cache *)
(* ================================================================== *)

Section CacheFacts.
Import GoLib Env Obs.

Lemma overwrite_In (new : Param) (s : list Param) :
  exists_ (Name new) s = true -> In new (overwrite new s).
Proof.
  unfold exists_. induction s as [|p s IH]; simpl; [discriminate|].
  destruct (String.eqb (Name p) (Name new)); simpl; [now left|].
  intros H. right. now apply IH.
Qed.

Lemma PutParameter_success_stores (input : PutParameterInput) (w : World) :
  fst (PutParameter input w) = None ->
  In (written input) (store (snd (PutParameter input w))).
Proof.
  unfold PutParameter, nextFault, emit. simpl.
  destruct (faults w) as [|[msg|] fl]; simpl; try discriminate;
    destruct (exists_ (PutName input) (store w)) eqn:Hex;
    try destruct (Overwrite input); simpl; try discriminate; intros _;
    try (now apply overwrite_In);
    apply in_or_app; right; now left.
Qed.

Lemma PutParameter_failure_store (input : PutParameterInput) (w : World)
      (e : error) :
  fst (PutParameter input w) = Some e ->
  store (snd (PutParameter input w)) = store w.
Proof.
  unfold PutParameter, nextFault, emit. simpl.
  destruct (faults w) as [|[msg|] fl]; simpl; try reflexivity;
    destruct (exists_ (PutName input) (store w));
    try destruct (Overwrite input); simpl; try discriminate; reflexivity.
Qed.

Lemma retryLoop_success_stores (n : nat) (input : PutParameterInput)
      (w : World) :
  fst (Manager.retryLoop n input w) = None ->
  In (written input) (store (snd (Manager.retryLoop n input w))).
Proof.
  revert w. induction n as [|n IH]; intros w; simpl; [discriminate|].
  pose proof (PutParameter_success_stores input w) as Hok.
  destruct (PutParameter input w) as [[e|] w1]; simpl in *.
  - apply IH.
  - intros _. now apply Hok.
Qed.

Lemma retryLoop_failure_store (n : nat) (input : PutParameterInput)
      (w : World) (e : error) :
  fst (Manager.retryLoop n input w) = Some e ->
  store (snd (Manager.retryLoop n input w)) = store w.
Proof.
  revert w. induction n as [|n IH]; intros w; simpl; [reflexivity|].
  pose proof (fun e' => PutParameter_failure_store input w e') as Hko.
  destruct (PutParameter input w) as [[e'|] w1]; simpl in *.
  - intros H. rewrite (IH _ H). simpl. now apply (Hko e').
  - discriminate.
Qed.

Lemma Println_store (text : string) (w : World) :
  store (Println text w) = store w.
Proof. reflexivity. Qed.

(** C6, as amended.  In [Manager]:
    - a creation, successful or not, leaves the manager, and so its cached
      latest write, as it was;
    - an edit that ends in an error leaves the manager as it was;
    - an edit that ends without error either wrote nothing and left the
      manager as it was, or its last write succeeded, the store holds the
      entry written, and the cache is exactly that entry: name, value and
      type. *)
Theorem C6_latest_write_follows_successful_edit
        (m : Manager.SSMManager) (params : list Param) (selection : string)
        (w : World) :
  let c := Manager.createNewParameter m w in
  let u := Manager.updateParameter m params selection w in
  snd (fst c) = m
  /\ (fst (fst u) <> None -> snd (fst u) = m)
  /\ (fst (fst u) = None ->
      (snd (fst u) = m /\ puts (trace (snd u)) = puts (trace w))
      \/ exists input j,
           puts (trace (snd u)) = puts (trace w) ++ repeat input (S j)
           /\ Overwrite input = true
           /\ In (written input) (store (snd u))
           /\ snd (fst u)
              = Manager.mkManager (Manager.prefix m) (Some (written input))
                                  (Manager.quiet m)).
Proof.
  intros c u. split; [|split].
  - subst c. unfold Manager.createNewParameter, Manager.promptForInput,
      Manager.promptForParamType.
    destruct (PromptRun _ w) as [[name|e] w1]; [|reflexivity].
    destruct (PromptRun _ w1) as [[value|e] w2]; [|reflexivity].
    destruct (SelectRun _ w2) as [[[i paramType]|e] w3]; [|reflexivity].
    destruct (Manager.updateParameterWithRetry _ _ _ w3) as [[e|] w4];
      reflexivity.
  - subst u. unfold Manager.updateParameter.
    destruct (find _ params) as [param|]; [|reflexivity].
    destruct (Manager.promptForNewValue _ _ _) as [[newValue|e] w2];
      [|reflexivity].
    destruct (String.eqb newValue (Value param)); [reflexivity|].
    destruct (Manager.updateParameterWithRetry _ _ _ w2) as [[e|] w3];
      [reflexivity|]. intros H. now contradiction H.
  - subst u. unfold Manager.updateParameter.
    destruct (find _ params) as [param|]; [|discriminate].
    set (w1 := if negb (Manager.quiet m) then _ else w).
    assert (H1 : puts (trace w1) = puts (trace w)).
    { subst w1. destruct (Manager.quiet m); cbn [negb];
        rewrite ?Println_puts; reflexivity. }
    unfold Manager.promptForNewValue.
    destruct (ReadlineWithDefault_frame (Value param) false w1) as [_ H2].
    destruct (ReadlineWithDefault (Value param) false w1) as [[line|e] w2];
      [|destruct e; discriminate].
    cbn [snd] in H2.
    destruct (String.eqb (TrimSpace line) (Value param)).
    + intros _. left. split; [reflexivity|].
      destruct (Manager.quiet m); cbn [fst snd negb];
        rewrite ?Println_puts, H2; exact H1.
    + unfold Manager.updateParameterWithRetry.
      set (input := mkPut _ (TrimSpace line) (Type_ param) true).
      pose proof (retryLoop_success_stores Manager.maxRetries input w2) as Hst.
      destruct (retryLoop_puts Manager.maxRetries input w2) as [j Hj].
      destruct (Manager.retryLoop Manager.maxRetries input w2)
        as [[e|] w3] eqn:Hr; [discriminate|].
      cbn [fst snd] in *. intros _. right.
      destruct j as [|j].
      * exfalso. (* a success has made at least one attempt *)
        pose proof (f_equal (fun r => trace (snd r)) Hr) as Ht.
        destruct (retryLoop_closed_form Manager.maxRetries input w2 eq_refl)
          as [Herr Htr].
        rewrite Hr in Herr, Htr. cbn [fst snd] in Herr, Htr.
        destruct (failuresAhead (faults w2) <? Manager.maxRetries)%nat;
          [|discriminate].
        rewrite Htr, !puts_app in Hj. simpl in Hj.
        rewrite app_nil_r in Hj.
        apply (f_equal (@List.length _)) in Hj.
        rewrite !length_app in Hj. simpl in Hj. lia.
      * exists input, j. split; [|split; [reflexivity | split]].
        -- destruct (Manager.quiet m); cbn [negb];
             rewrite ?Println_puts, Hj, H2, H1; reflexivity.
        -- destruct (Manager.quiet m); cbn [negb];
             rewrite ?Println_store; now apply Hst.
        -- reflexivity.
Qed.

End CacheFacts.

Section CacheExamples.
Import GoLib Env Obs.

Lemma C6_latest_write_witness :
  let m := Manager.mkManager "/app/test/" None true in
  let params := [mkParam "/app/test/A" "1" "String";
                 mkParam "/app/test/B" "2" "String"] in
  let ok := mkWorld params [Some "ThrottlingException"] [Typed "3"] [] in
  let ko := mkWorld params (repeat (Some "ThrottlingException") 5)
                    [Typed "3"] [] in
  Manager.latestParam
    (snd (fst (Manager.updateParameter m params "B = 2" ok)))
  = Some (mkParam "/app/test/B" "3" "String")
  /\ snd (fst (Manager.updateParameter m params "B = 2" ko)) = m.
Proof.
  intros m params ok ko. split.
  - destruct (C6_latest_write_follows_successful_edit m params "B = 2" ok)
      as (_ & _ & H).
    destruct (H eq_refl) as [[_ Hp] | (input & j & Hp & _ & _ & Hm)].
    + vm_compute in Hp. discriminate Hp.
    + rewrite Hm. vm_compute in Hp. injection Hp as Hi _. subst input.
      reflexivity.
  - destruct (C6_latest_write_follows_successful_edit m params "B = 2" ko)
      as (_ & H & _).
    apply H. vm_compute. discriminate.
Defined.

(** C6 fails as stated for creations: a creation that succeeds leaves the
    cache empty, in [Manager] and in [Secure] alike. *)
Lemma C6_create_leaves_cache_untouched :
  let created := mkParam "/app/test/C" "3" "String" in
  let w := mkWorld [] [] [Typed "C"; Typed "3"; Chosen 0] [] in
  let r := Manager.createNewParameter
             (Manager.mkManager "/app/test/" None true) w in
  let s := Secure.iteration "/app/test/" false false None
             (mkWorld [] [] [Chosen 0; Typed "C"; Typed "3"; Chosen 0] []) in
  fst (fst r) = None
  /\ store (snd r) = [created]
  /\ Manager.latestParam (snd (fst r)) = None
  /\ Manager.latestParam (snd (fst r)) <> Some created
  /\ store (snd s) = [created]
  /\ fst s = Continue None.
Proof. vm_compute. repeat split; discriminate. Qed.

(** [Secure]: the turn after a creation always continues with the cache it
    started with. *)
Lemma Secure_create_turn_keeps_cache (prefix : string) (debug secure : bool)
      (latestParam : option Param) (w w1 : World) (params : list Param)
      (rest : list Answer) :
  fetchAll prefix w = Some (Ok params, w1) ->
  script w1 = Chosen 0 :: rest ->
  fst (Secure.iteration prefix debug secure latestParam w)
  = Continue latestParam.
Proof.
  intros Hf Hs. unfold Secure.iteration. rewrite Hf.
  pose proof (SelectRun_chosen
                (secureMenu secure (Listing.reconcile latestParam params))
                0 "Create new variable" w1 rest eq_refl Hs) as Hsel.
  unfold secureMenu in Hsel. rewrite Hsel.
  destruct (Secure.createNewParameter prefix debug _) as [[e|] w3];
    reflexivity.
Qed.

End CacheExamples.

(* ================================================================== *)
(** ** From the menu line back to the entry *)
(* ================================================================== *)

Section MenuLineFacts.
Import GoLib Env Obs.

Lemma string_app_assoc (a b c : string) :
  ((a ++ b) ++ c = a ++ b ++ c)%string.
Proof. induction a as [|x a IH]; simpl; [reflexivity | now rewrite IH]. Qed.

Lemma Split_without_separator (rel : string) :
  hasSlash rel = false -> Split rel "/"%char = [rel].
Proof.
  unfold hasSlash.
  induction rel as [|c rel IH]; cbn [list_ascii_of_string existsb Split];
    [reflexivity|].
  intros H. apply orb_false_elim in H. destruct H as [Hc Hrel].
  rewrite Ascii.eqb_sym, Hc, (IH Hrel). reflexivity.
Qed.

Lemma Split_nonempty (s : string) (sep : ascii) : Split s sep <> [].
Proof.
  destruct s as [|c s]; cbn [Split]; [discriminate|].
  destruct (Ascii.eqb c sep); [discriminate|].
  destruct (Split s sep); discriminate.
Qed.

Lemma Split_two_fields (a rel : string) :
  2 <= List.length (Split (a ++ "/" ++ rel)%string "/"%char).
Proof.
  induction a as [|c a IH]; cbn [String.append Split] in *.
  - rewrite Ascii.eqb_refl. pose proof (Split_nonempty rel "/"%char).
    destruct (Split rel "/"%char); [congruence | simpl; lia].
  - destruct (Ascii.eqb c "/"%char); cbn [Datatypes.length]; [lia|].
    destruct (Split (a ++ String "/" rel)%string "/"%char) as [|h t];
      cbn [Datatypes.length] in *; lia.
Qed.

Lemma lastField_of_child (a rel : string) :
  hasSlash rel = false ->
  lastField (Split (a ++ "/" ++ rel)%string "/"%char) = rel.
Proof.
  intros H. unfold lastField. induction a as [|c a IH].
  - cbn [String.append Split]. rewrite Ascii.eqb_refl.
    now rewrite (Split_without_separator rel H).
  - pose proof (Split_two_fields a rel) as Hlen.
    cbn [String.append Split] in *.
    destruct (Split (a ++ String "/" rel)%string "/"%char) as [|h [|h' t]];
      cbn [Datatypes.length] in Hlen; try lia.
    destruct (Ascii.eqb c "/"%char); exact IH.
Qed.

Lemma SplitN2_first_of_line (rel value : string) :
  hasSpace rel = false ->
  SplitN2_first " = " (Sprintf_kv rel value) = rel.
Proof.
  unfold hasSpace, Sprintf_kv.
  induction rel as [|c rel IH];
    cbn [String.append SplitN2_first String.prefix list_ascii_of_string
         existsb] in *.
  - intros _. destruct value; reflexivity.
  - intros H. apply orb_false_elim in H. destruct H as [Hc Hrel].
    destruct (ascii_dec " " c) as [E|_].
    + subst c. discriminate Hc.
    + now rewrite (IH Hrel).
Qed.

(** For an entry one level below a prefix that ends in "/", whose relative
    name has no blank, the name [Secure] and [Legacy] rebuild from the menu
    line is the entry's own name, whatever value the line shows. *)
Lemma name_rebuilt_from_menu_line (dir rel shown : string) :
  hasSlash rel = false -> hasSpace rel = false ->
  let prefix := (dir ++ "/")%string in
  let name := (prefix ++ rel)%string in
  (prefix
   ++ SplitN2_first " = "
        (Sprintf_kv (lastField (Split name "/"%char)) shown))%string
  = name.
Proof.
  intros Hslash Hspace prefix name. subst prefix name.
  rewrite (string_app_assoc dir "/" rel).
  rewrite (lastField_of_child dir rel Hslash).
  rewrite (SplitN2_first_of_line rel shown Hspace).
  apply string_app_assoc.
Qed.

End MenuLineFacts.

(* ================================================================== *)
(** ** The loops as a whole *)
(* ================================================================== *)

Section LoopFacts.
Import GoLib Env Obs.

(** The listing [Manager.fetchParameters] returns is sorted. *)
Lemma Manager_fetchParameters_sorted (m : Manager.SSMManager) (w w1 : World)
      (params : list Param) :
  Manager.fetchParameters m w = Some (Ok params, w1) ->
  StronglySorted Listing.byName params.
Proof.
  unfold Manager.fetchParameters.
  destruct (fetchAll (Manager.prefix m) w) as [[[ps|e] w']|];
    try discriminate.
  intros H. injection H as <- _. apply sortSlice_sorted.
Qed.

(** [Manager.run] always returns. *)
Lemma Manager_run_returns (m : Manager.SSMManager) (w : World) :
  Manager.run m w <> None.
Proof.
  unfold Manager.run, Manager.fetchParameters.
  pose proof (fetchAll_returns (Manager.prefix m) w) as H.
  destruct (fetchAll (Manager.prefix m) w) as [[[ps|e] w1]|];
    [| discriminate | congruence].
  destruct (Manager.promptForAction m _ w1) as [[action|e] w2];
    [|discriminate].
  destruct (String.eqb action "quit"); [discriminate|].
  destruct (String.eqb action "create"); discriminate.
Qed.

(** However many reads fail in a row, [Manager] makes them all, one turn of
    its loop after the other. *)
Lemma Manager_read_errors_all_retried (msgs : list string) :
  forall (fuel : nat) (m : Manager.SSMManager) (w : World)
         (rest : list (option string)),
    faults w = map Some msgs ++ rest ->
    exists w',
      Manager.loop (List.length msgs + fuel) m w = Manager.loop fuel m w'
      /\ gets (trace w')
         = gets (trace w)
           ++ repeat (mkGet (Manager.prefix m) false true None)
                     (List.length msgs)
      /\ puts (trace w') = puts (trace w)
      /\ faults w' = rest /\ script w' = script w /\ store w' = store w.
Proof.
  induction msgs as [|msg msgs IH]; intros fuel m w rest Hf.
  - exists w. simpl in *. rewrite app_nil_r. repeat split; auto.
  - cbn [map app] in Hf. cbn [Datatypes.length Nat.add].
    rewrite (Manager_read_error_loops _ m w
               (answered (CallGetParametersByPath
                            (mkGet (Manager.prefix m) false true None)) w)
               (Errorf msg)).
    2:{ unfold Manager.fetchParameters.
        now rewrite (fetchAll_fault _ msg w _ Hf). }
    destruct (IH fuel m
                 (emit (LogPrintf ("Error: error fetching parameters: "
                                   ++ Error (Errorf msg))%string)
                       (answered (CallGetParametersByPath
                                    (mkGet (Manager.prefix m) false true None))
                                 w))
                 rest) as (w' & Hl & Hg & Hp & Hfa & Hsc & Hst).
    { simpl. now rewrite Hf. }
    simpl in Hsc, Hst.
    exists w'. split; [exact Hl|].
    split; [|split; [|repeat split; assumption]].
    + rewrite Hg. simpl. rewrite !gets_app. simpl.
      rewrite app_nil_r, <- app_assoc. reflexivity.
    + rewrite Hp. simpl. rewrite !puts_app. simpl.
      now rewrite !app_nil_r.
Qed.

Lemma Secure_formatParameters_length (params : list Param) (secure : bool) :
  List.length (Secure.formatParameters params secure) = List.length params.
Proof.
  unfold Secure.formatParameters. rewrite range_append_map. simpl.
  apply length_map.
Qed.

(** A turn of [Secure.main] neither runs out of fuel nor indexes outside the
    listing. *)
Lemma Secure_iteration_well_defined (prefix : string) (debug secure : bool)
      (latestParam : option Param) (w : World) :
  let r := Secure.iteration prefix debug secure latestParam w in
  fst r <> Stop OutOfFuel /\ fst r <> Stop Panicked.
Proof.
  intros r. subst r. unfold Secure.iteration.
  pose proof (fetchAll_returns prefix w) as H.
  destruct (fetchAll prefix w) as [[[ps|e] w1]|];
    [| split; discriminate | congruence].
  set (params := Listing.reconcile latestParam ps).
  unfold SelectRun, nextAnswer.
  destruct (script (emit _ w1)) as [|[| |index|line] rest];
    cbn [fst snd]; try (split; discriminate).
  destruct (nth_error _ index) as [item|] eqn:Hitem;
    [|split; discriminate].
  destruct index as [|i].
  - destruct (Secure.createNewParameter prefix debug _) as [[e|] w3];
      split; discriminate.
  - cbn [nth_error] in Hitem.
    assert (Hi : i < List.length params).
    { rewrite <- (Secure_formatParameters_length params secure).
      apply nth_error_Some. congruence. }
    apply nth_error_Some in Hi.
    unfold Secure.editSelected.
    replace (S i - 1) with i by lia.
    destruct (nth_error params i) as [selected|]; [|congruence].
    destruct (ReadlineWithDefault _ secure _) as [[line|e] w3].
    + destruct (_ || _); [split; discriminate|].
      destruct (Secure.updateParameter _ _ _ w3) as [[e|] w4];
        split; discriminate.
    + destruct e; split; discriminate.
Qed.

(** [Manager.createNewParameter] on a name the store holds: as soon as one
    of its attempts gets through, the creation succeeds and the store holds
    the new value. *)
Lemma Manager_create_overwrites_existing_name (m : Manager.SSMManager)
      (name value paramType : string) (index : nat) (w : World)
      (rest : list Answer) :
  script w = Typed name :: Typed value :: Chosen index :: rest ->
  nth_error ["String"; "StringList"; "SecureString"] index = Some paramType ->
  failuresAhead (faults w) < Manager.maxRetries ->
  let r := Manager.createNewParameter m w in
  fst (fst r) = None
  /\ In (mkParam (Manager.prefix m ++ name)%string value paramType)
        (store (snd r)).
Proof.
  intros Hs Hi Hk r. subst r.
  unfold Manager.createNewParameter, Manager.promptForInput,
    Manager.promptForParamType.
  rewrite (PromptRun_typed _ name w _ Hs).
  rewrite (PromptRun_typed _ value (asked _ w) (Chosen index :: rest))
    by (simpl; now rewrite Hs).
  rewrite (SelectRun_chosen _ index paramType _ rest Hi)
    by (simpl; now rewrite Hs).
  unfold Manager.updateParameterWithRetry.
  set (input := mkPut _ value paramType true).
  set (w3 := asked _ (asked _ (asked _ w))).
  destruct (retryLoop_closed_form Manager.maxRetries input w3 eq_refl)
    as [Herr _].
  pose proof (retryLoop_success_stores Manager.maxRetries input w3) as Hst.
  change (faults w3) with (faults w) in Herr.
  apply Nat.ltb_lt in Hk. rewrite Hk in Herr.
  destruct (Manager.retryLoop Manager.maxRetries input w3) as [[e|] w4];
    cbn [fst snd] in *; [discriminate|].
  split; [reflexivity|].
  destruct (Manager.quiet m); cbn [negb]; rewrite ?Println_store;
    now apply Hst.
Qed.

End LoopFacts.

(* ================================================================== *)
(** ** What a session may do: invariants of the whole trace *)
(* ================================================================== *)

Section TraceInvariant.
Import GoLib Env Obs.

Variable P : Event -> Prop.

Lemma grows_refl (w : World) : grows P w w.
Proof. exists []. now rewrite app_nil_r. Qed.

Lemma grows_trans (w1 w2 w3 : World) :
  grows P w1 w2 -> grows P w2 w3 -> grows P w1 w3.
Proof.
  intros (d1 & E1 & F1) (d2 & E2 & F2). exists (d1 ++ d2).
  rewrite E2, E1, app_assoc. split; [reflexivity|].
  apply Forall_app. now split.
Qed.

Lemma grows_one (e : Event) (w w' : World) :
  P e -> trace w' = trace w ++ [e] -> grows P w w'.
Proof. intros He Ht. exists [e]. split; [exact Ht | now constructor]. Qed.

Lemma grows_emit (e : Event) (w : World) : P e -> grows P w (emit e w).
Proof. intros He. now apply (grows_one e). Qed.

Lemma grows_Println (text : string) (w : World) :
  (forall t, P (Print t)) -> grows P w (Println text w).
Proof. intros H. apply grows_emit, H. Qed.

Lemma grows_PromptRun (label : string) (w : World) :
  P (AskPrompt label) -> grows P w (snd (PromptRun label w)).
Proof.
  intros H. apply (grows_one (AskPrompt label)); [exact H|].
  unfold PromptRun, nextAnswer, emit. simpl.
  destruct (script w) as [|[| |i|l] rest]; reflexivity.
Qed.

Lemma grows_SelectRun (items : list string) (w : World) :
  P (AskSelect items) -> grows P w (snd (SelectRun items w)).
Proof.
  intros H. apply (grows_one (AskSelect items)); [exact H|].
  unfold SelectRun, nextAnswer, emit. simpl.
  destruct (script w) as [|[| |i|l] rest]; try reflexivity.
  destruct (nth_error items i); reflexivity.
Qed.

Lemma grows_Readline (what : string) (mask : bool) (w : World) :
  P (AskReadline what mask) ->
  grows P w (snd (ReadlineWithDefault what mask w)).
Proof.
  intros H. apply (grows_one (AskReadline what mask)); [exact H|].
  unfold ReadlineWithDefault, nextAnswer, emit. simpl.
  destruct (script w) as [|[| |i|l] rest]; reflexivity.
Qed.

Lemma grows_ReadString (w : World) :
  P AskStdin -> grows P w (snd (ReadString w)).
Proof.
  intros H. apply (grows_one AskStdin); [exact H|].
  unfold ReadString, nextAnswer, emit. simpl.
  destruct (script w) as [|[| |i|l] rest]; reflexivity.
Qed.

Lemma grows_PutParameter (input : PutParameterInput) (w : World) :
  P (CallPutParameter input) -> grows P w (snd (PutParameter input w)).
Proof.
  intros H. apply (grows_one (CallPutParameter input)); [exact H|].
  apply PutParameter_trace.
Qed.

Lemma grows_GetParametersByPath (input : GetParametersByPathInput)
      (w : World) :
  P (CallGetParametersByPath input) ->
  grows P w (snd (GetParametersByPath input w)).
Proof.
  intros H. apply (grows_one (CallGetParametersByPath input)); [exact H|].
  unfold GetParametersByPath, nextFault, emit. simpl.
  destruct (faults w) as [|[msg|] rest]; reflexivity.
Qed.

Lemma grows_fetchPages (fuel : nat) (prefix : string) :
  (forall tok, P (CallGetParametersByPath (mkGet prefix false true tok))) ->
  forall (tok : option nat) (acc : list Param) (w w' : World)
         (r : result (list Param)),
    fetchPages fuel prefix tok acc w = Some (r, w') -> grows P w w'.
Proof.
  intros HP. induction fuel as [|fuel IH]; intros tok acc w w' r; simpl;
    [discriminate|].
  pose proof (grows_GetParametersByPath (mkGet prefix false true tok) w
                (HP tok)) as G.
  destruct (GetParametersByPath _ w) as [[[page next]|e] w1]; cbn [snd] in G.
  - destruct next as [token|].
    + intros H. eapply grows_trans; [exact G|]. eapply IH. exact H.
    + intros H. injection H as _ <-. exact G.
  - intros H. injection H as _ <-. exact G.
Qed.

Lemma grows_fetchAll (prefix : string) (w w' : World)
      (r : result (list Param)) :
  (forall tok, P (CallGetParametersByPath (mkGet prefix false true tok))) ->
  fetchAll prefix w = Some (r, w') -> grows P w w'.
Proof. intros HP H. eapply grows_fetchPages; eassumption. Qed.

Lemma grows_retryLoop (n : nat) (input : PutParameterInput) (w : World) :
  P (CallPutParameter input) -> P (Sleep Manager.retryDelay) ->
  grows P w (snd (Manager.retryLoop n input w)).
Proof.
  intros Hp Hs. revert w. induction n as [|n IH]; intros w; simpl.
  - apply grows_refl.
  - pose proof (grows_PutParameter input w Hp) as G.
    destruct (PutParameter input w) as [[e|] w1]; cbn [snd] in G |- *.
    + eapply grows_trans; [exact G|].
      eapply grows_trans; [apply grows_emit, Hs | apply IH].
    + exact G.
Qed.

End TraceInvariant.

Section ManagerSession.
Import GoLib Env Obs.

Lemma prefix_of_append (p x : string) : String.prefix p (p ++ x) = true.
Proof.
  induction p as [|a p IH]; simpl.
  - destruct x; reflexivity.
  - destruct (ascii_dec a a); [exact IH | congruence].
Qed.

Local Ltac chain G := eapply grows_trans; [exact G|].

Lemma Manager_retry_grows (m : Manager.SSMManager)
      (rel value paramType : string) (w : World) :
  grows (managerEvent (Manager.prefix m)) w
        (snd (Manager.updateParameterWithRetry
                (Manager.prefix m ++ rel)%string value paramType w)).
Proof.
  unfold Manager.updateParameterWithRetry. apply grows_retryLoop.
  - simpl. split; [apply prefix_of_append | reflexivity].
  - reflexivity.
Qed.

Lemma Manager_create_grows (m : Manager.SSMManager) (w : World) :
  grows (managerEvent (Manager.prefix m)) w
        (snd (Manager.createNewParameter m w)).
Proof.
  unfold Manager.createNewParameter, Manager.promptForInput,
    Manager.promptForParamType.
  pose proof (grows_PromptRun (managerEvent (Manager.prefix m))
                "Enter new parameter name" w I) as G1.
  destruct (PromptRun _ w) as [[name|e] w1]; cbn [snd] in *; [|exact G1].
  pose proof (grows_PromptRun (managerEvent (Manager.prefix m))
                "Enter parameter value" w1 I) as G2.
  destruct (PromptRun _ w1) as [[value|e] w2]; cbn [snd] in *;
    [|chain G1; exact G2].
  pose proof (grows_SelectRun (managerEvent (Manager.prefix m))
                ["String"; "StringList"; "SecureString"] w2 I) as G3.
  destruct (SelectRun _ w2) as [[[i paramType]|e] w3]; cbn [snd] in *;
    [|chain G1; chain G2; exact G3].
  pose proof (Manager_retry_grows m name value paramType w3) as G4.
  destruct (Manager.updateParameterWithRetry _ _ _ w3) as [[e|] w4];
    cbn [snd] in *.
  - chain G1. chain G2. chain G3. exact G4.
  - chain G1. chain G2. chain G3. chain G4.
    destruct (Manager.quiet m); cbn [negb];
      [apply grows_refl | now apply grows_Println].
Qed.

Lemma Manager_update_grows (m : Manager.SSMManager) (params : list Param)
      (selection : string) (w : World) :
  let r := Manager.updateParameter m params selection w in
  grows (managerEvent (Manager.prefix m)) w (snd r)
  /\ Manager.prefix (snd (fst r)) = Manager.prefix m
  /\ Manager.quiet (snd (fst r)) = Manager.quiet m.
Proof.
  intros r. subst r. unfold Manager.updateParameter.
  destruct (find _ params) as [param|];
    [|split; [apply grows_refl | split; reflexivity]].
  set (w1 := if negb (Manager.quiet m) then _ else w).
  assert (G1 : grows (managerEvent (Manager.prefix m)) w w1).
  { subst w1. destruct (Manager.quiet m); cbn [negb]; [apply grows_refl|].
    eapply grows_trans; now apply grows_Println. }
  unfold Manager.promptForNewValue.
  pose proof (grows_Readline (managerEvent (Manager.prefix m))
                (Value param) false w1 I) as G2.
  destruct (ReadlineWithDefault _ false w1) as [[line|e] w2]; cbn [snd] in *.
  - destruct (String.eqb (TrimSpace line) (Value param)).
    + split; [|split; reflexivity]. chain G1. chain G2.
      destruct (Manager.quiet m); cbn [negb snd];
        [apply grows_refl | now apply grows_Println].
    + pose proof (Manager_retry_grows m (SplitN2_first " = " selection)
                    (TrimSpace line) (Type_ param) w2) as G3.
      destruct (Manager.updateParameterWithRetry _ _ _ w2) as [[e|] w3];
        cbn [fst snd] in *; (split; [|split; reflexivity]).
      * chain G1. chain G2. exact G3.
      * chain G1. chain G2. chain G3.
        destruct (Manager.quiet m); cbn [negb];
          [apply grows_refl | now apply grows_Println].
  - destruct e; cbn [fst snd]; (split; [|split; reflexivity]);
      chain G1; exact G2.
Qed.

Lemma Manager_run_grows (m m' : Manager.SSMManager) (w w' : World)
      (err : option error) :
  Manager.run m w = Some (err, m', w') ->
  grows (managerEvent (Manager.prefix m)) w w'
  /\ Manager.prefix m' = Manager.prefix m
  /\ Manager.quiet m' = Manager.quiet m.
Proof.
  unfold Manager.run, Manager.fetchParameters.
  destruct (fetchAll (Manager.prefix m) w) as [[r w1]|] eqn:Hf;
    [|discriminate].
  assert (G1 : grows (managerEvent (Manager.prefix m)) w w1).
  { eapply grows_fetchAll; [|exact Hf]. intros tok. simpl.
    unfold readOf. auto. }
  destruct r as [ps|e].
  - unfold Manager.promptForAction.
    pose proof (grows_SelectRun (managerEvent (Manager.prefix m))
                  (managerMenu m (Listing.reconcile
                                    (Manager.latestParam m) ps)) w1 I) as G2.
    unfold managerMenu in G2.
    destruct (SelectRun _ w1) as [[[index result]|e] w2]; cbn [snd] in *.
    + set (action := if String.eqb result "Quit" then _ else _).
      assert (Hact : exists a, action = (Ok a, w2)).
      { subst action. destruct (String.eqb result "Quit"); [eauto|].
        destruct (index =? 0)%nat; eauto. }
      destruct Hact as [a ->].
      destruct (String.eqb a "quit").
      * intros H. injection H as _ <- <-. split; [|split; reflexivity].
        chain G1. chain G2.
        destruct (Manager.quiet m); cbn [negb];
          [apply grows_refl | now apply grows_Println].
      * destruct (String.eqb a "create").
        -- intros H. injection H as H.
           pose proof (Manager_create_grows m w2) as G3.
           assert (Hm : snd (fst (Manager.createNewParameter m w2)) = m).
           { unfold Manager.createNewParameter, Manager.promptForInput,
               Manager.promptForParamType.
             destruct (PromptRun _ w2) as [[n|e] x1]; [|reflexivity].
             destruct (PromptRun _ x1) as [[v|e] x2]; [|reflexivity].
             destruct (SelectRun _ x2) as [[[i t]|e] x3]; [|reflexivity].
             destruct (Manager.updateParameterWithRetry _ _ _ x3)
               as [[e|] x4]; reflexivity. }
           rewrite H in G3, Hm. cbn [fst snd] in G3, Hm. subst m'.
           split; [|split; reflexivity]. chain G1. chain G2. exact G3.
        -- intros H. injection H as H.
           destruct (Manager_update_grows m
                       (Listing.reconcile (Manager.latestParam m) ps) a w2)
             as (G3 & Hp & Hq).
           rewrite H in G3, Hp, Hq. cbn [fst snd] in G3, Hp, Hq.
           split; [|split; assumption]. chain G1. chain G2. exact G3.
    + intros H. injection H as _ <- <-. split; [|split; reflexivity].
      chain G1. exact G2.
  - intros H. injection H as _ <- <-. split; [|split; reflexivity]. exact G1.
Qed.

End ManagerSession.

Section PrefixFacts.
Import GoLib Env Obs.

Lemma string_length_append (a b : string) :
  String.length (a ++ b) = String.length a + String.length b.
Proof. induction a as [|c a IH]; simpl; [reflexivity | now rewrite IH]. Qed.

Lemma substring_tail (a b : string) :
  substring (String.length a) (String.length b) (a ++ b) = b.
Proof.
  induction a as [|c a IH]; simpl; [|exact IH].
  induction b as [|d b IHb]; simpl; [reflexivity|].
  destruct b; simpl in *; now rewrite ?IHb.
Qed.

Lemma HasSuffix_append (a b : string) : HasSuffix (a ++ b) b = true.
Proof.
  unfold HasSuffix. rewrite string_length_append.
  replace (String.length a + String.length b - String.length b)
    with (String.length a) by lia.
  rewrite substring_tail, String.eqb_refl.
  replace (String.length b <=? String.length a + String.length b)%nat
    with true; [reflexivity|].
  symmetry. apply Nat.leb_le. lia.
Qed.

Lemma HasSuffix_ensureTrailingSlash (s : string) :
  HasSuffix (Manager.ensureTrailingSlash s) "/" = true.
Proof.
  unfold Manager.ensureTrailingSlash.
  destruct (HasSuffix s "/") eqn:E; cbn [negb]; [exact E|].
  apply HasSuffix_append.
Qed.

(** X1.  [ensureTrailingSlash] gives a string that ends in "/": it adds one
    slash when the last byte is not a slash (so the empty string becomes
    "/") and changes nothing otherwise; applied twice it does what it does
    applied once. *)
Theorem ensureTrailingSlash_normal_form (s : string) :
  HasSuffix (Manager.ensureTrailingSlash s) "/" = true
  /\ Manager.ensureTrailingSlash (Manager.ensureTrailingSlash s)
     = Manager.ensureTrailingSlash s
  /\ (Manager.ensureTrailingSlash s = s
      \/ (HasSuffix s "/" = false
          /\ Manager.ensureTrailingSlash s = (s ++ "/")%string))
  /\ Manager.ensureTrailingSlash "" = "/".
Proof.
  split; [apply HasSuffix_ensureTrailingSlash|].
  split; [|split; [|reflexivity]].
  - unfold Manager.ensureTrailingSlash at 1.
    now rewrite HasSuffix_ensureTrailingSlash.
  - unfold Manager.ensureTrailingSlash.
    destruct (HasSuffix s "/"); cbn [negb]; auto.
Qed.

End PrefixFacts.

Section Sessions.
Import GoLib Env Obs.

Local Ltac chain G := eapply grows_trans; [exact G|].

Lemma Manager_loop_grows (fuel : nat) :
  forall (m : Manager.SSMManager) (w : World),
    grows (managerEvent (Manager.prefix m)) w (snd (Manager.loop fuel m w)).
Proof.
  induction fuel as [|fuel IH]; intros m w; simpl; [apply grows_refl|].
  destruct (Manager.run m w) as [[[err m'] w1]|] eqn:Hr;
    [|apply grows_refl].
  destruct (Manager_run_grows m m' w w1 err Hr) as (G & Hp & _).
  destruct err as [e|].
  - destruct (String.eqb (Error e) "user quit"); [exact G|].
    chain G.
    eapply grows_trans;
      [apply (grows_emit _ (LogPrintf ("Error: " ++ Error e)%string)); exact I|].
    rewrite <- Hp. apply IH.
  - chain G. rewrite <- Hp. apply IH.
Qed.

(** X2.  A whole session of [Manager.main], whatever the user and the
    service do and however long it runs, works on one prefix that ends in
    "/" (the flag, normalised, when a flag is given): every read it issues
    is on that path, not recursive and decrypting; every write it issues has
    a name that starts with that prefix and has [Overwrite] set; every sleep
    lasts 200 ms. *)
Theorem Manager_session_confined (fuel : nat) (prefixFlag : string)
        (quietFlag : bool) (w : World) :
  exists p,
    HasSuffix p "/" = true
    /\ (prefixFlag <> EmptyString ->
        p = Manager.ensureTrailingSlash prefixFlag)
    /\ grows (managerEvent p) w
             (snd (Manager.main fuel prefixFlag quietFlag w)).
Proof.
  unfold Manager.main, Manager.getPrefix.
  destruct (String.eqb_spec prefixFlag EmptyString) as [E|NE]; cbn [negb].
  - pose proof (fun p => grows_PromptRun (managerEvent p)
                           "Enter SSM parameter prefix" w I) as G1.
    destruct (PromptRun _ w) as [[answer|e] w1]; cbn [snd] in *.
    + exists (Manager.ensureTrailingSlash answer).
      split; [apply HasSuffix_ensureTrailingSlash|].
      split; [congruence|].
      chain (G1 (Manager.ensureTrailingSlash answer)).
      apply (Manager_loop_grows fuel (Manager.mkManager _ None quietFlag)).
    + exists "/". split; [reflexivity|]. split; [congruence|].
      chain (G1 "/"). now apply grows_emit.
  - exists (Manager.ensureTrailingSlash prefixFlag).
    split; [apply HasSuffix_ensureTrailingSlash|].
    split; [reflexivity|].
    apply (Manager_loop_grows fuel (Manager.mkManager _ None quietFlag)).
Qed.

Lemma Secure_create_grows (prefix : string) (quiet : bool) (w : World) :
  grows (secureEvent prefix) w
        (snd (Secure.createNewParameter prefix quiet w)).
Proof.
  unfold Secure.createNewParameter.
  pose proof (grows_PromptRun (secureEvent prefix)
                "Enter new parameter name" w I) as G1.
  destruct (PromptRun _ w) as [[name|e] w1]; cbn [snd] in *; [|exact G1].
  pose proof (grows_PromptRun (secureEvent prefix)
                "Enter parameter value" w1 I) as G2.
  destruct (PromptRun _ w1) as [[value|e] w2]; cbn [snd] in *;
    [|chain G1; exact G2].
  pose proof (grows_SelectRun (secureEvent prefix) Secure.paramTypes w2 I)
    as G3.
  destruct (SelectRun _ w2) as [[[i paramType]|e] w3]; cbn [snd] in *;
    [|chain G1; chain G2; exact G3].
  pose proof (grows_PutParameter (secureEvent prefix)
                (mkPut (prefix ++ name)%string value paramType false) w3
                (prefix_of_append prefix name)) as G4.
  destruct (PutParameter _ w3) as [[e|] w4]; cbn [snd] in *.
  - chain G1. chain G2. chain G3. exact G4.
  - chain G1. chain G2. chain G3. chain G4.
    destruct quiet; cbn [negb]; [apply grows_refl | now apply grows_Println].
Qed.

Lemma Secure_edit_grows (prefix : string) (debug secure : bool)
      (params : list Param) (index : nat) (result : string)
      (latestParam : option Param) (w : World) :
  grows (secureEvent prefix) w
        (snd (Secure.editSelected prefix debug secure params index result
                                  latestParam w)).
Proof.
  unfold Secure.editSelected.
  destruct (nth_error params (index - 1)) as [selected|];
    [|apply grows_refl].
  set (current := if secure then EmptyString else Value selected).
  set (w1 := if debug then _ else w).
  assert (G1 : grows (secureEvent prefix) w w1).
  { subst w1. destruct debug; [|apply grows_refl].
    destruct secure; now apply grows_Println. }
  pose proof (grows_Readline (secureEvent prefix) current secure w1 I) as G2.
  destruct (ReadlineWithDefault current secure w1) as [[line|e] w2];
    cbn [snd] in *.
  - destruct (_ || _).
    + chain G1. chain G2.
      destruct debug; cbn [snd]; [now apply grows_Println | apply grows_refl].
    + unfold Secure.updateParameter.
      pose proof (grows_PutParameter (secureEvent prefix)
                    (mkPut (prefix ++ SplitN2_first " = " result)%string
                           (TrimSpace line) (Type_ selected) true) w2
                    (prefix_of_append prefix _)) as G3.
      destruct (PutParameter _ w2) as [[e|] w3]; cbn [snd] in *.
      * chain G1. chain G2. chain G3. now apply grows_Println.
      * chain G1. chain G2. chain G3.
        destruct debug; [now apply grows_Println | apply grows_refl].
  - chain G1. chain G2.
    destruct e; cbn [snd]; try (now apply grows_Println).
    destruct debug; [now apply grows_Println | apply grows_refl].
Qed.

Lemma Secure_iteration_grows (prefix : string) (debug secure : bool)
      (latestParam : option Param) (w : World) :
  grows (secureEvent prefix) w
        (snd (Secure.iteration prefix debug secure latestParam w)).
Proof.
  unfold Secure.iteration.
  destruct (fetchAll prefix w) as [[r w1]|] eqn:Hf; [|apply grows_refl].
  assert (G1 : grows (secureEvent prefix) w w1).
  { eapply grows_fetchAll; [|exact Hf]. intros tok. simpl.
    unfold readOf. auto. }
  destruct r as [ps|e]; [|chain G1; now apply grows_Println].
  pose proof (grows_SelectRun (secureEvent prefix)
                (secureMenu secure (Listing.reconcile latestParam ps)) w1 I)
    as G2.
  unfold secureMenu in G2.
  destruct (SelectRun _ w1) as [[[index result]|e] w2]; cbn [snd] in *.
  - destruct index as [|i].
    + pose proof (Secure_create_grows prefix debug w2) as G3.
      destruct (Secure.createNewParameter prefix debug w2) as [[e|] w3];
        cbn [snd] in *.
      * chain G1. chain G2. chain G3. now apply grows_Println.
      * chain G1. chain G2. exact G3.
    + chain G1. chain G2. apply Secure_edit_grows.
  - chain G1. chain G2. destruct e; now apply grows_Println.
Qed.

Lemma Secure_loop_grows (fuel : nat) (prefix : string) (debug secure : bool) :
  forall (latestParam : option Param) (w : World),
    grows (secureEvent prefix) w
          (snd (Secure.loop fuel prefix debug secure latestParam w)).
Proof.
  induction fuel as [|fuel IH]; intros latestParam w; simpl;
    [apply grows_refl|].
  pose proof (Secure_iteration_grows prefix debug secure latestParam w) as G.
  destruct (Secure.iteration prefix debug secure latestParam w)
    as [[latest'|o] w1]; cbn [snd] in *.
  - chain G. apply IH.
  - exact G.
Qed.

(** X3.  A whole session of [Secure.main] works on one prefix that ends in
    "/": every read is on that path, not recursive and decrypting; every
    write has a name that starts with that prefix; the program never
    sleeps and never writes to the log. *)
Theorem Secure_session_confined (fuel : nat) (prefixFlag : string)
        (debugFlag secureFlag : bool) (w : World) :
  exists p,
    HasSuffix p "/" = true
    /\ grows (secureEvent p) w
             (snd (Secure.main fuel prefixFlag debugFlag secureFlag w)).
Proof.
  unfold Secure.main.
  assert (Hnorm : forall s,
             HasSuffix (if HasSuffix s "/" then s else (s ++ "/")%string) "/"
             = true).
  { intros s. destruct (HasSuffix s "/") eqn:E;
      [exact E | apply HasSuffix_append]. }
  destruct (String.eqb prefixFlag EmptyString); cbn [negb].
  - pose proof (fun p => grows_PromptRun (secureEvent p)
                           "Enter SSM parameter prefix" w I) as G1.
    destruct (PromptRun _ w) as [[answer|e] w1]; cbn [snd] in *.
    + eexists. split; [apply (Hnorm answer)|].
      chain (G1 (if HasSuffix answer "/" then answer
                 else (answer ++ "/")%string)).
      apply Secure_loop_grows.
    + exists "/". split; [reflexivity|].
      chain (G1 "/"). now apply grows_Println.
  - eexists. split; [apply (Hnorm prefixFlag)|]. apply Secure_loop_grows.
Qed.

Lemma Legacy_iteration_grows (prefix : string) (w : World) :
  grows (legacyEvent prefix) w (snd (Legacy.iteration prefix w)).
Proof.
  unfold Legacy.iteration.
  destruct (fetchAll prefix w) as [[r w1]|] eqn:Hf; [|apply grows_refl].
  assert (G1 : grows (legacyEvent prefix) w w1).
  { eapply grows_fetchAll; [|exact Hf]. intros tok. simpl.
    unfold readOf. auto. }
  destruct r as [ps|e]; [|chain G1; now apply grows_Println].
  pose proof (grows_SelectRun (legacyEvent prefix)
                (Legacy.formatParameters ps) w1 I) as G2.
  destruct (SelectRun _ w1) as [[[index result]|e] w2]; cbn [snd] in *.
  - destruct (nth_error ps index) as [selected|]; [|chain G1; exact G2].
    set (w3 := Println _ w2). set (w4 := emit _ w3).
    assert (G3 : grows (legacyEvent prefix) w2 w4).
    { eapply grows_trans; [now apply grows_Println | now apply grows_emit]. }
    pose proof (grows_ReadString (legacyEvent prefix) w4 I) as G4.
    destruct (ReadString w4) as [line w5]; cbn [snd] in *.
    destruct (String.eqb (TrimSpace line) EmptyString).
    + chain G1. chain G2. chain G3. chain G4. now apply grows_Println.
    + unfold Legacy.updateParameter.
      pose proof (grows_PutParameter (legacyEvent prefix)
                    (mkPut (prefix ++ SplitN2_first " = " result)%string
                           (TrimSpace line) "SecureString" true) w5) as G5.
      destruct (PutParameter _ w5) as [[e|] w6]; cbn [snd] in *;
        (chain G1; chain G2; chain G3; chain G4;
         eapply grows_trans;
         [apply G5; simpl; split; [apply prefix_of_append | auto]
         | now apply grows_Println]).
  - chain G1. chain G2. destruct e; now apply grows_Println.
Qed.

Lemma Legacy_loop_grows (fuel : nat) (prefix : string) :
  forall w : World,
    grows (legacyEvent prefix) w (snd (Legacy.loop fuel prefix w)).
Proof.
  induction fuel as [|fuel IH]; intros w; simpl; [apply grows_refl|].
  pose proof (Legacy_iteration_grows prefix w) as G.
  destruct (Legacy.iteration prefix w) as [[latest'|o] w1]; cbn [snd] in *.
  - chain G. apply IH.
  - exact G.
Qed.

(** X4.  A whole session of [Legacy.main] works on one prefix that ends in
    "/": every read is on that path, not recursive and decrypting; every
    write has a name that starts with that prefix, the type "SecureString"
    and [Overwrite] set; the program never sleeps. *)
Theorem Legacy_session_confined (fuel : nat) (w : World) :
  exists p,
    HasSuffix p "/" = true
    /\ grows (legacyEvent p) w (snd (Legacy.main fuel w)).
Proof.
  unfold Legacy.main.
  set (w1 := emit _ w).
  assert (G1 : forall p, grows (legacyEvent p) w w1)
    by (intros p; now apply grows_emit).
  pose proof (fun p => grows_ReadString (legacyEvent p) w1 I) as G2.
  destruct (ReadString w1) as [line w2]; cbn [snd] in *.
  eexists. split.
  - instantiate (1 := if HasSuffix (TrimSpace line) "/" then TrimSpace line
                      else (TrimSpace line ++ "/")%string).
    destruct (HasSuffix (TrimSpace line) "/") eqn:E;
      [exact E | apply HasSuffix_append].
  - chain (G1 (if HasSuffix (TrimSpace line) "/" then TrimSpace line
               else (TrimSpace line ++ "/")%string)).
    eapply grows_trans; [apply G2 | apply Legacy_loop_grows].
Qed.

End Sessions.

(* ================================================================== *)
(** ** Pagination *)
(* ================================================================== *)

Section PaginationFacts.
Import GoLib Env Obs.

Lemma GetParametersByPath_no_fault (prefix : string) (tok : option nat)
      (w : World) :
  Forall (fun f => f = None) (faults w) ->
  let off := match tok with Some n => n | None => 0 end in
  let all := children prefix (store w) in
  GetParametersByPath (mkGet prefix false true tok) w
  = (Ok (firstn maxResults (skipn off all),
         if (off + maxResults <? List.length all)%nat
         then Some (off + maxResults) else None),
     answered (CallGetParametersByPath (mkGet prefix false true tok)) w).
Proof.
  intros Hf off all. unfold GetParametersByPath, nextFault, emit, answered.
  cbn [faults store script trace Path NextToken].
  destruct (faults w) as [|f fs]; [reflexivity|].
  inversion Hf; subst. reflexivity.
Qed.

Lemma fetchPages_complete (fuel : nat) (prefix : string) :
  forall (tok : option nat) (acc : list Param) (w : World),
    Forall (fun f => f = None) (faults w) ->
    1 <= fuel ->
    List.length (children prefix (store w))
    <= match tok with Some n => n | None => 0 end + maxResults * fuel ->
    exists w',
      fetchPages fuel prefix tok acc w
      = Some (Ok (acc ++ skipn (match tok with Some n => n | None => 0 end)
                               (children prefix (store w))), w')
      /\ store w' = store w /\ script w' = script w
      /\ puts (trace w') = puts (trace w).
Proof.
  induction fuel as [|fuel IH]; intros tok acc w Hf H1 Hlen; [lia|].
  cbn [fetchPages]. rewrite (GetParametersByPath_no_fault prefix tok w Hf).
  set (off := match tok with Some n => n | None => 0 end) in *.
  set (w1 := answered _ w).
  assert (Hf1 : Forall (fun f => f = None) (faults w1)).
  { subst w1. unfold answered. cbn [faults].
    destruct (faults w) as [|f fs]; [constructor|]. now inversion Hf. }
  assert (Hp1 : puts (trace w1) = puts (trace w)).
  { subst w1. unfold answered. cbn [trace]. rewrite puts_app. simpl.
    apply app_nil_r. }
  destruct (Nat.ltb_spec (off + maxResults)
              (List.length (children prefix (store w)))) as [Hlt|Hge].
  - destruct (IH (Some (off + maxResults))
                 (acc ++ firstn maxResults
                           (skipn off (children prefix (store w))))
                 w1 Hf1) as (w' & E & Hst' & Hsc' & Hpu').
    + unfold maxResults in *. lia.
    + subst w1. unfold answered. cbn [store]. unfold maxResults in *. lia.
    + exists w'. rewrite E. subst w1. unfold answered in *.
      cbn [store script] in *. rewrite <- app_assoc.
      rewrite (Nat.add_comm off maxResults), <- skipn_skipn, firstn_skipn.
      repeat split; congruence.
  - exists w1. rewrite firstn_all2 by (rewrite length_skipn; lia).
    subst w1. unfold answered in *. cbn [store script] in *.
    repeat split; assumption.
Qed.

(** X5.  When no page request fails, the pagination loop of
    [fetchParameters] returns every parameter one level below the prefix,
    each once and in the order of the service, however many pages that
    takes; it leaves the store as it was and writes nothing.  [Manager]
    returns that listing reconciled with its latest write. *)
Theorem fetchParameters_returns_whole_listing (prefix : string) (w : World) :
  Forall (fun f => f = None) (faults w) ->
  (exists w',
      fetchAll prefix w = Some (Ok (children prefix (store w)), w')
      /\ store w' = store w /\ puts (trace w') = puts (trace w))
  /\ (forall m, Manager.prefix m = prefix ->
        exists w',
          Manager.fetchParameters m w
          = Some (Ok (Listing.reconcile (Manager.latestParam m)
                        (children prefix (store w))), w')).
Proof.
  intros Hf.
  destruct (fetchPages_complete (S (List.length (store w))) prefix None [] w
              Hf) as (w' & E & Hst & _ & Hpu).
  - lia.
  - unfold children, maxResults.
    pose proof (filter_length_le (isChild prefix) (store w)). lia.
  - simpl skipn in E. simpl app in E. split.
    + exists w'. auto.
    + intros m Hm. exists w'. unfold Manager.fetchParameters.
      rewrite Hm. unfold fetchAll. now rewrite E.
Qed.

Lemma fetchParameters_whole_listing_witness :
  let p := mkParam "/p/a" "1" "String" in
  let w := mkWorld (mkParam "/q/x" "0" "String" :: repeat p 23) [None]
                   [] [] in
  exists w', fetchAll "/p/" w = Some (Ok (repeat p 23), w')
             /\ List.length (gets (trace w')) = 3.
Proof.
  intros p w.
  destruct (fetchParameters_returns_whole_listing "/p/" w) as [(w' & E & _) _].
  - repeat constructor.
  - exists w'. split; [exact E|].
    assert (Ht : match fetchAll "/p/" w with
                 | Some (_, x) => List.length (gets (trace x)) = 3
                 | None => False
                 end) by (vm_compute; reflexivity).
    rewrite E in Ht. exact Ht.
Defined.

End PaginationFacts.

(* ================================================================== *)
(** ** More on the reconciled listing *)
(* ================================================================== *)

Section ReconcileFrame.
Import GoLib Env Obs Listing.

Lemma replaceFirst_names (W : Param) (L : list Param) :
  map Name (replaceFirst W L) = map Name L.
Proof.
  induction L as [|p L IH]; simpl; [reflexivity|].
  destruct (String.eqb_spec (Name p) (Name W)) as [E|_]; simpl.
  - now rewrite E.
  - now rewrite IH.
Qed.

(** X16.  Reconciliation neither adds nor drops an entry and changes no
    name: the names of the reconciled listing are those of the fetched one,
    rearranged.  In particular a cached write whose name the fetched listing
    does not hold is not shown. *)
Theorem reconcile_keeps_names (latestParam : option Param) (L : list Param) :
  Permutation (map Name (reconcile latestParam L)) (map Name L)
  /\ List.length (reconcile latestParam L) = List.length L
  /\ (forall W, latestParam = Some W ->
        ~ In (Name W) (map Name L) ->
        forall q, In q (reconcile latestParam L) -> Name q <> Name W).
Proof.
  assert (Hperm : Permutation (map Name (reconcile latestParam L))
                              (map Name L)).
  { unfold reconcile. rewrite (Permutation_map Name (sortSlice_perm _)).
    destruct latestParam as [W|]; simpl; [|reflexivity].
    now rewrite replaceFirst_names. }
  split; [exact Hperm|]. split.
  - rewrite <- (length_map Name (reconcile latestParam L)),
      <- (length_map Name L).
    now apply Permutation_length.
  - intros W _ Hnot q Hq E. apply Hnot. rewrite <- E.
    eapply Permutation_in; [exact Hperm|]. now apply in_map.
Qed.

End ReconcileFrame.

(* ================================================================== *)
(** ** The menu of [Manager] *)
(* ================================================================== *)

Section ManagerMenuFacts.
Import GoLib Env Obs.

Lemma Manager_formatParameters_map (m : Manager.SSMManager)
      (params : list Param) :
  Manager.formatParameters m params
  = map (fun p => Sprintf_kv (TrimPrefix (Name p) (Manager.prefix m))
                             (Value p)) params.
Proof. unfold Manager.formatParameters. now rewrite range_append_map. Qed.

Lemma managerMenu_shape (m : Manager.SSMManager) (params : list Param) :
  managerMenu m params
  = "Create new variable" :: Manager.formatParameters m params ++ ["Quit"].
Proof. unfold managerMenu. destruct params; reflexivity. Qed.

Lemma managerMenu_last (m : Manager.SSMManager) (params : list Param) :
  nth_error (managerMenu m params) (S (List.length params)) = Some "Quit".
Proof.
  rewrite managerMenu_shape. cbn [nth_error].
  rewrite nth_error_app2;
    rewrite Manager_formatParameters_map, length_map; [|lia].
  now rewrite Nat.sub_diag.
Qed.

Lemma managerMenu_entry (m : Manager.SSMManager) (params : list Param)
      (i : nat) (p : Param) :
  nth_error params i = Some p ->
  nth_error (managerMenu m params) (S i)
  = Some (Sprintf_kv (TrimPrefix (Name p) (Manager.prefix m)) (Value p)).
Proof.
  intros H. rewrite managerMenu_shape. cbn [nth_error].
  rewrite nth_error_app1.
  - now apply Manager_formatParameters_nth.
  - rewrite Manager_formatParameters_map, length_map.
    apply nth_error_Some. congruence.
Qed.

Lemma managerMenu_beyond (m : Manager.SSMManager) (params : list Param)
      (index : nat) :
  S (List.length params) < index ->
  nth_error (managerMenu m params) index = None.
Proof.
  intros H. apply nth_error_None. rewrite managerMenu_shape.
  cbn [Datatypes.length].
  rewrite length_app, Manager_formatParameters_map, length_map. simpl. lia.
Qed.

Lemma Sprintf_kv_has_space (a b : string) : hasSpace (Sprintf_kv a b) = true.
Proof.
  unfold hasSpace, Sprintf_kv.
  induction a as [|c a IH];
    cbn [String.append list_ascii_of_string existsb] in *.
  - reflexivity.
  - rewrite IH. apply orb_true_r.
Qed.

Lemma Sprintf_kv_is_no_word (a b word : string) :
  hasSpace word = false -> String.eqb (Sprintf_kv a b) word = false.
Proof.
  intros H. apply String.eqb_neq. intros E.
  rewrite <- E, Sprintf_kv_has_space in H. discriminate.
Qed.

Lemma dropPrefix_append (p x : string) : dropPrefix p (p ++ x) = Some x.
Proof.
  induction p as [|a p IH]; simpl; [reflexivity|].
  now rewrite Ascii.eqb_refl.
Qed.

(** X6.  What the menu of [Manager.promptForAction] answers: the first item
    is the creation, the last item, one past the entries, is the quit, and
    the item in between at [index] is the line of the entry at [index - 1]
    of the listing, handed on as it is.  No line of an entry is ever taken
    for "quit" or "create", whatever its name and value.  An index past the
    menu is an error. *)
Theorem Manager_promptForAction_dispatch (m : Manager.SSMManager)
        (params : list Param) (index : nat) (w : World)
        (rest : list Answer) :
  script w = Chosen index :: rest ->
  let r := Manager.promptForAction m params w in
  snd r = asked (AskSelect (managerMenu m params)) w
  /\ (index = 0 -> fst r = Ok "create")
  /\ (index = S (List.length params) -> fst r = Ok "quit")
  /\ (forall i p,
        index = S i -> nth_error params i = Some p ->
        let line := Sprintf_kv (TrimPrefix (Name p) (Manager.prefix m))
                               (Value p) in
        fst r = Ok line /\ line <> "quit" /\ line <> "create")
  /\ (S (List.length params) < index -> fst r = Err PromptEOF).
Proof.
  intros Hs r. subst r. unfold Manager.promptForAction.
  fold (managerMenu m params).
  assert (Hsel : forall item,
             nth_error (managerMenu m params) index = Some item ->
             SelectRun (managerMenu m params) w
             = (Ok (index, item), asked (AskSelect (managerMenu m params)) w))
    by (intros item Hi; exact (SelectRun_chosen _ _ _ _ _ Hi Hs)).
  split; [|split; [|split; [|split]]].
  - unfold SelectRun, nextAnswer, emit, asked. simpl. rewrite Hs. simpl.
    destruct (nth_error (managerMenu m params) index);
      [destruct (String.eqb s "Quit"); [|destruct (index =? 0)%nat]|];
      reflexivity.
  - intros ->. rewrite (Hsel "Create new variable");
      [reflexivity | now rewrite managerMenu_shape].
  - intros ->. rewrite (Hsel "Quit"); [reflexivity | apply managerMenu_last].
  - intros i p -> Hp.
    rewrite (Hsel _ (managerMenu_entry m params i p Hp)).
    rewrite (Sprintf_kv_is_no_word _ _ "Quit" eq_refl).
    cbn [Nat.eqb fst]. split; [reflexivity|].
    split; apply String.eqb_neq, Sprintf_kv_is_no_word; reflexivity.
  - intros Hbig. unfold SelectRun, nextAnswer, emit. simpl. rewrite Hs.
    simpl. now rewrite (managerMenu_beyond m params index Hbig).
Qed.

Lemma Manager_promptForAction_witness :
  let m := Manager.mkManager "/app/test/" None true in
  let params := [mkParam "/app/test/A" "1" "String";
                 mkParam "/app/test/B" "2" "String"] in
  fst (Manager.promptForAction m params (mkWorld [] [] [Chosen 2] []))
  = Ok "B = 2"
  /\ fst (Manager.promptForAction m params (mkWorld [] [] [Chosen 3] []))
     = Ok "quit".
Proof.
  intros m params. split.
  - destruct (Manager_promptForAction_dispatch m params 2
                (mkWorld [] [] [Chosen 2] []) [] eq_refl)
      as (_ & _ & _ & H & _).
    destruct (H 1 (mkParam "/app/test/B" "2" "String") eq_refl eq_refl)
      as [E _].
    exact E.
  - destruct (Manager_promptForAction_dispatch m params 3
                (mkWorld [] [] [Chosen 3] []) [] eq_refl)
      as (_ & _ & H & _).
    exact (H eq_refl).
Defined.

End ManagerMenuFacts.

Section ManagerSelection.
Import GoLib Env Obs.

Lemma same_name_same_entry (l : list Param) (a b : Param) :
  NoDup (map Name l) -> In a l -> In b l -> Name a = Name b -> a = b.
Proof.
  induction l as [|x l IH]; simpl; intros Hnd Ha Hb E; [contradiction|].
  apply NoDup_cons_iff in Hnd. destruct Hnd as [Hx Hnd].
  destruct Ha as [<-|Ha], Hb as [<-|Hb]; auto.
  - exfalso. apply Hx. rewrite E. now apply in_map.
  - exfalso. apply Hx. rewrite <- E. now apply in_map.
Qed.

Lemma find_by_name (params : list Param) (p : Param) :
  In p params ->
  exists q,
    find (fun x => String.eqb (Name x) (Name p)) params = Some q
    /\ Name q = Name p /\ In q params.
Proof.
  induction params as [|x params IH]; simpl; intros H; [contradiction|].
  destruct (String.eqb_spec (Name x) (Name p)) as [E|NE].
  - exists x. auto.
  - destruct H as [->|H]; [congruence|].
    destruct (IH H) as (q & Hq & Hn & Hi). exists q. auto.
Qed.

Lemma Manager_promptForAction_entry (m : Manager.SSMManager)
      (params : list Param) (i : nat) (p : Param) (w : World)
      (rest : list Answer) :
  script w = Chosen (S i) :: rest -> nth_error params i = Some p ->
  Manager.promptForAction m params w
  = (Ok (Sprintf_kv (TrimPrefix (Name p) (Manager.prefix m)) (Value p)),
     asked (AskSelect (managerMenu m params)) w).
Proof.
  intros Hs Hp. unfold Manager.promptForAction. fold (managerMenu m params).
  rewrite (SelectRun_chosen _ _ _ _ _ (managerMenu_entry m params i p Hp) Hs).
  now rewrite (Sprintf_kv_is_no_word _ _ "Quit" eq_refl).
Qed.

(** X7.  In [Manager], picking the line of an entry whose name is the
    prefix followed by a relative name without blank runs [updateParameter]
    on that line, and the lookup there finds an entry of exactly that name,
    never "parameter not found"; when the names of the listing are distinct
    it finds the entry picked. *)
Theorem Manager_selected_line_finds_entry (m : Manager.SSMManager)
        (params : list Param) (i : nat) (p : Param) (rel : string)
        (w w1 : World) (rest : list Answer) :
  Manager.fetchParameters m w = Some (Ok params, w1) ->
  script w1 = Chosen (S i) :: rest ->
  nth_error params i = Some p ->
  Name p = (Manager.prefix m ++ rel)%string ->
  hasSpace rel = false ->
  let line := Sprintf_kv (TrimPrefix (Name p) (Manager.prefix m)) (Value p) in
  exists q,
    find (fun x => String.eqb (Name x)
                     (Manager.prefix m ++ SplitN2_first " = " line)%string)
         params = Some q
    /\ Name q = Name p
    /\ (NoDup (map Name params) -> q = p)
    /\ Manager.run m w
       = Some (Manager.updateParameter m params line
                 (asked (AskSelect (managerMenu m params)) w1)).
Proof.
  intros Hf Hs Hp Hname Hrel line.
  assert (Hline : line = Sprintf_kv rel (Value p)).
  { subst line. unfold TrimPrefix. now rewrite Hname, dropPrefix_append. }
  assert (Hin : In p params) by (eapply nth_error_In; exact Hp).
  destruct (find_by_name params p Hin) as (q & Hfind & Hq & Hqin).
  exists q. split; [|split; [exact Hq | split]].
  - rewrite Hline, (SplitN2_first_of_line rel (Value p) Hrel), <- Hname.
    exact Hfind.
  - intros Hnd. now apply (same_name_same_entry params).
  - unfold Manager.run. rewrite Hf.
    rewrite (Manager_promptForAction_entry m params i p w1 rest Hs Hp).
    fold line. rewrite Hline.
    rewrite (Sprintf_kv_is_no_word _ _ "quit" eq_refl).
    rewrite (Sprintf_kv_is_no_word _ _ "create" eq_refl). reflexivity.
Qed.

Lemma Manager_selected_line_witness :
  let m := Manager.mkManager "/app/test/" None true in
  let A := mkParam "/app/test/A" "1" "String" in
  let B := mkParam "/app/test/B" "2" "String" in
  let w := mkWorld [B; A] [] [Chosen 2; Typed "3"] [] in
  find (fun x => String.eqb (Name x)
                   ("/app/test/" ++ SplitN2_first " = " "B = 2")%string)
       [A; B] = Some B.
Proof.
  intros m A B w.
  destruct (Manager_selected_line_finds_entry m [A; B] 1 B "B" w
              (answered (CallGetParametersByPath
                           (mkGet "/app/test/" false true None)) w)
              [Typed "3"] eq_refl eq_refl eq_refl eq_refl eq_refl)
    as (q & Hfind & _ & Hq & _).
  assert (E : q = B)
    by (apply Hq; repeat constructor; simpl; intuition discriminate).
  rewrite E in Hfind. exact Hfind.
Defined.

(** X8.  In [Manager], picking "Quit", the item one past the entries, ends
    [main] in that very turn: it returns without a write, leaves the store
    and the manager as they are, and prints "Exiting..." unless quiet. *)
Theorem Manager_quit_ends_session (fuel : nat) (m : Manager.SSMManager)
        (params : list Param) (w w1 : World) (rest : list Answer) :
  Manager.fetchParameters m w = Some (Ok params, w1) ->
  script w1 = Chosen (S (List.length params)) :: rest ->
  let asked1 := asked (AskSelect (managerMenu m params)) w1 in
  Manager.loop (S fuel) m w
  = (Returned, m,
     if negb (Manager.quiet m) then Println "Exiting..." asked1 else asked1)
  /\ puts (trace (snd (Manager.loop (S fuel) m w))) = puts (trace w1)
  /\ store (snd (Manager.loop (S fuel) m w)) = store w1.
Proof.
  intros Hf Hs asked1.
  assert (E : Manager.loop (S fuel) m w
              = (Returned, m,
                 if negb (Manager.quiet m)
                 then Println "Exiting..." asked1 else asked1)).
  { cbn [Manager.loop]. unfold Manager.run. rewrite Hf.
    unfold Manager.promptForAction. fold (managerMenu m params).
    rewrite (SelectRun_chosen _ _ _ _ _ (managerMenu_last m params) Hs).
    reflexivity. }
  rewrite E. split; [reflexivity|]. cbn [snd]. subst asked1.
  destruct (Manager.quiet m); cbn [negb]; rewrite ?Println_puts;
    unfold asked; cbn [trace store]; rewrite ?puts_app; simpl;
    rewrite ?app_nil_r; split; reflexivity.
Qed.

Lemma Manager_quit_witness :
  fst (Manager.loop 1 (Manager.mkManager "/app/test/" None true)
         (mkWorld [mkParam "/app/test/A" "1" "String"] [] [Chosen 2] []))
  = (Returned, Manager.mkManager "/app/test/" None true).
Proof.
  destruct (Manager_quit_ends_session 0
              (Manager.mkManager "/app/test/" None true)
              [mkParam "/app/test/A" "1" "String"]
              (mkWorld [mkParam "/app/test/A" "1" "String"] [] [Chosen 2] [])
              (answered (CallGetParametersByPath
                           (mkGet "/app/test/" false true None))
                 (mkWorld [mkParam "/app/test/A" "1" "String"] []
                          [Chosen 2] []))
              [] eq_refl eq_refl) as [E _].
  rewrite E. reflexivity.
Defined.

End ManagerSelection.

(* ================================================================== *)
(** ** The search of the menu of [Secure] *)
(* ================================================================== *)

Section SearchFacts.
Import GoLib Env Obs.

Lemma prefix_empty (s : string) : String.prefix EmptyString s = true.
Proof. destruct s; reflexivity. Qed.

Lemma prefix_refl (s : string) : String.prefix s s = true.
Proof.
  induction s as [|c s IH]; simpl; [reflexivity|].
  destruct (ascii_dec c c); [exact IH | congruence].
Qed.

Lemma Contains_empty (s : string) : Contains s EmptyString = true.
Proof. destruct s; reflexivity. Qed.

Lemma Contains_self (s : string) : Contains s s = true.
Proof. destruct s; cbn [Contains]; now rewrite prefix_refl. Qed.

Lemma secureMenu_entry (secure : bool) (params : list Param) (i : nat)
      (p : Param) :
  nth_error params i = Some p ->
  nth_error (secureMenu secure params) (S i)
  = Some (Sprintf_kv (lastField (Split (Name p) "/"%char))
            (if secure && String.eqb (Type_ p) "SecureString"
             then "******" else Value p)).
Proof. intros H. now apply Secure_formatParameters_nth. Qed.

Section Searching.

(** [strings.ToLower], known by what it does to ASCII strings. *)
Variable ToLower : string -> string.
Hypothesis ToLower_on_ASCII :
  forall s, isASCII s = true -> ToLower s = ToLowerASCII s.

(** X9.  The search of the menu of [Secure] looks at the key of an entry
    only: for the item of an entry whose key has no blank the answer is
    whether the lower-cased key contains the lower-cased input, whatever the
    value is and whether it is masked or not.  So the empty input keeps
    every entry, and an input that [strings.ToLower] maps to what it maps
    the key to finds the entry.  The first item is searched by its own
    label.  [strings.ToLower] is any function that lowers A to Z in strings
    of ASCII bytes. *)
Theorem Secure_Searcher_looks_at_key_only (params : list Param)
        (secure : bool) (i : nat) (p : Param) (input : string) :
  nth_error params i = Some p ->
  hasSpace (lastField (Split (Name p) "/"%char)) = false ->
  let key := lastField (Split (Name p) "/"%char) in
  let items := secureMenu secure params in
  Secure.Searcher ToLower items input (S i)
  = Some (Contains (ToLower key) (ToLower input))
  /\ Secure.Searcher ToLower items EmptyString (S i) = Some true
  /\ (ToLower input = ToLower key ->
      Secure.Searcher ToLower items input (S i) = Some true)
  /\ Secure.Searcher ToLower items input 0
     = Some (Contains "create new variable" (ToLower input))
  /\ Secure.Searcher ToLower items input (S (List.length params)) = None.
Proof.
  intros Hp Hkey key items.
  assert (H : forall s,
             Secure.Searcher ToLower items s (S i)
             = Some (Contains (ToLower key) (ToLower s))).
  { intros s. unfold Secure.Searcher. subst items.
    rewrite (secureMenu_entry secure params i p Hp). cbn [Nat.eqb].
    now rewrite (SplitN2_first_of_line _ _ Hkey). }
  split; [apply H|]. split; [|split; [|split]].
  - rewrite H, (ToLower_on_ASCII EmptyString eq_refl).
    cbn [ToLowerASCII]. now rewrite Contains_empty.
  - intros E. rewrite H, E. now rewrite Contains_self.
  - unfold Secure.Searcher. subst items. unfold secureMenu.
    cbn [nth_error Nat.eqb].
    now rewrite (ToLower_on_ASCII "Create new variable" eq_refl).
  - unfold Secure.Searcher. subst items. unfold secureMenu.
    cbn [nth_error].
    replace (nth_error (Secure.formatParameters params secure)
                       (List.length params)) with (@None string);
      [reflexivity|].
    symmetry. apply nth_error_None.
    now rewrite Secure_formatParameters_length.
Qed.

End Searching.

Lemma Secure_Searcher_witness :
  let params := [mkParam "/app/test/DB_HOST" "alpha" "String";
                 mkParam "/app/test/DB_PASS" "host" "SecureString"] in
  Secure.Searcher ToLowerASCII (secureMenu true params) "host" 1 = Some true
  /\ Secure.Searcher ToLowerASCII (secureMenu true params) "host" 2
     = Some false.
Proof.
  intros params. split.
  - destruct (Secure_Searcher_looks_at_key_only ToLowerASCII
                (fun s _ => eq_refl) params true 0
                (mkParam "/app/test/DB_HOST" "alpha" "String") "host"
                eq_refl eq_refl) as [E _].
    rewrite E. reflexivity.
  - destruct (Secure_Searcher_looks_at_key_only ToLowerASCII
                (fun s _ => eq_refl) params true 1
                (mkParam "/app/test/DB_PASS" "host" "SecureString") "host"
                eq_refl eq_refl) as [E _].
    rewrite E. reflexivity.
Defined.

(** X10.  [Secure.main] never indexes outside the listing: whatever the
    user picks, whatever the service answers and however long the session
    runs, [params[index-1]] is in range. *)
Theorem Secure_loop_never_panics (fuel : nat) (prefix : string)
        (debug secure : bool) :
  forall (latestParam : option Param) (w : World),
    fst (Secure.loop fuel prefix debug secure latestParam w) <> Panicked.
Proof.
  induction fuel as [|fuel IH]; intros latestParam w; cbn [Secure.loop].
  - discriminate.
  - destruct (Secure_iteration_well_defined prefix debug secure latestParam w)
      as [Hfuel Hpanic].
    destruct (Secure.iteration prefix debug secure latestParam w)
      as [[latest'|o] w1]; cbn [fst] in *.
    + apply IH.
    + congruence.
Qed.

End SearchFacts.

(* ================================================================== *)
(** ** The edit turn, in full *)
(* ================================================================== *)

Section EditTurn.
Import GoLib Env Obs.

Lemma PutParameter_overwrite_result (input : PutParameterInput) (w : World) :
  Overwrite input = true ->
  match faults w with
  | Some msg :: _ =>
      fst (PutParameter input w) = Some (Errorf msg)
      /\ store (snd (PutParameter input w)) = store w
  | _ =>
      fst (PutParameter input w) = None
      /\ In (written input) (store (snd (PutParameter input w)))
  end.
Proof.
  intros Ho. destruct (faults w) as [|[msg|] fs] eqn:Hf.
  - destruct (PutParameter_overwrite_ok input w) as [s E];
      [now rewrite Hf | exact Ho |].
    split; [now rewrite E|]. apply PutParameter_success_stores.
    now rewrite E.
  - rewrite (PutParameter_fault input w msg fs Hf). split; reflexivity.
  - destruct (PutParameter_overwrite_ok input w) as [s E];
      [now rewrite Hf | exact Ho |].
    split; [now rewrite E|]. apply PutParameter_success_stores.
    now rewrite E.
Qed.

(** X11.  An edit in [Secure], once the user has submitted a line: the line
    is trimmed; when it is empty or equal to the text the prompt was filled
    with, nothing is written and the cache stays.  Otherwise exactly one
    write is made, under the name rebuilt from the menu line, with the
    trimmed line as value, the type of the entry picked and [Overwrite]
    set; when the service fails it the cache and the store stay as they
    were, when it succeeds the store holds the entry written and the cache
    is that entry.  Either way the loop goes on. *)
Theorem Secure_edit_turn (prefix : string) (debug secure : bool)
        (params : list Param) (index : nat) (result : string)
        (latestParam : option Param) (selected : Param) (line : string)
        (w : World) (rest : list Answer) :
  nth_error params (index - 1) = Some selected ->
  script w = Typed line :: rest ->
  let newValue := TrimSpace line in
  let shown := if secure then EmptyString else Value selected in
  let input := mkPut (prefix ++ SplitN2_first " = " result)%string newValue
                     (Type_ selected) true in
  let r := Secure.editSelected prefix debug secure params index result
                               latestParam w in
  if String.eqb newValue EmptyString || String.eqb newValue shown then
    fst r = Continue latestParam /\ puts (trace (snd r)) = puts (trace w)
    /\ store (snd r) = store w
  else
    puts (trace (snd r)) = puts (trace w) ++ [input]
    /\ match faults w with
       | Some _ :: _ => fst r = Continue latestParam /\ store (snd r) = store w
       | _ => fst r = Continue (Some (written input))
              /\ In (written input) (store (snd r))
       end.
Proof.
  intros Hn Hs newValue shown input r. subst r.
  unfold Secure.editSelected. rewrite Hn. fold shown.
  set (w1 := if debug then _ else w).
  assert (H1 : script w1 = script w /\ faults w1 = faults w
               /\ store w1 = store w /\ puts (trace w1) = puts (trace w)).
  { subst w1. destruct debug, secure; rewrite ?Println_puts; auto. }
  destruct H1 as (Hsc & Hfa & Hst & Hpu).
  rewrite (Readline_typed shown line secure w1 rest) by congruence.
  set (w2 := asked _ w1).
  assert (H2 : faults w2 = faults w /\ store w2 = store w
               /\ puts (trace w2) = puts (trace w)).
  { subst w2. unfold asked. cbn [faults store trace].
    rewrite puts_app. simpl. rewrite app_nil_r. auto. }
  destruct H2 as (Hfa2 & Hst2 & Hpu2).
  fold newValue.
  destruct (String.eqb newValue EmptyString || String.eqb newValue shown).
  - destruct debug; cbn [fst snd]; rewrite ?Println_puts; auto.
  - unfold Secure.updateParameter. fold input.
    pose proof (PutParameter_trace input w2) as Ht.
    pose proof (PutParameter_overwrite_result input w2 eq_refl) as Hr.
    rewrite Hfa2 in Hr.
    destruct (PutParameter input w2) as [[e|] w3]; cbn [fst snd] in *.
    + split.
      * rewrite Println_puts, Ht, puts_app, Hpu2. reflexivity.
      * destruct (faults w) as [|[msg|] fs]; destruct Hr as [Hr1 Hr2];
          try discriminate.
        split; [reflexivity|]. rewrite Println_store. congruence.
    + split.
      * destruct debug; rewrite ?Println_puts, Ht, puts_app, Hpu2;
          reflexivity.
      * destruct (faults w) as [|[msg|] fs]; destruct Hr as [Hr1 Hr2];
          try discriminate;
          (split; [reflexivity|]);
          destruct debug; rewrite ?Println_store; exact Hr2.
Qed.

Lemma Secure_edit_turn_witness :
  let B := mkParam "/app/test/B" "2" "SecureString" in
  let w := mkWorld [B] [] [Typed " 3 "] [] in
  let r := Secure.editSelected "/app/test/" false true [B] 1 "B = ******"
                               None w in
  let blank := mkWorld [B] [] [Typed (utf8 [194; 160])] [] in
  puts (trace (snd r)) = [mkPut "/app/test/B" "3" "SecureString" true]
  /\ fst r = Continue (Some (mkParam "/app/test/B" "3" "SecureString"))
  /\ puts (trace (snd (Secure.editSelected "/app/test/" false true [B] 1
                         "B = ******" None blank))) = [].
Proof.
  intros B w r blank.
  pose proof (Secure_edit_turn "/app/test/" false true [B] 1 "B = ******"
                None B " 3 " w [] eq_refl eq_refl) as H.
  cbv zeta in H. change (TrimSpace " 3 ") with "3" in H.
  cbn [String.eqb Ascii.eqb Bool.eqb orb faults w] in H.
  destruct H as (Hp & Hf & _).
  pose proof (Secure_edit_turn "/app/test/" false true [B] 1 "B = ******"
                None B (utf8 [194; 160]) blank [] eq_refl eq_refl) as H'.
  cbv zeta in H'.
  change (TrimSpace (utf8 [194; 160])) with EmptyString in H'.
  cbn [String.eqb orb] in H'.
  destruct H' as (_ & Hp' & _).
  split; [exact Hp | split; [exact Hf | exact Hp']].
Defined.

(** X12.  An edit in [Manager], once the user has submitted a line: the
    line is trimmed; when it equals the current value nothing is written.
    Otherwise, also when it is empty, the same write (name of the entry
    found, trimmed line, type of the entry, [Overwrite] set) is attempted
    until one attempt succeeds, five times at most; on success the manager
    caches the entry written, after five failures the error is "error
    updating parameter: failed to update parameter after 5 attempts" and
    the manager is as before. *)
Theorem Manager_edit_turn (m : Manager.SSMManager) (params : list Param)
        (selection : string) (param : Param) (line : string) (w : World)
        (rest : list Answer) :
  find (fun p => String.eqb (Name p)
                   (Manager.prefix m ++ SplitN2_first " = " selection)%string)
       params = Some param ->
  script w = Typed line :: rest ->
  let newValue := TrimSpace line in
  let input := mkPut (Manager.prefix m ++ SplitN2_first " = " selection)%string
                     newValue (Type_ param) true in
  let k := failuresAhead (faults w) in
  let r := Manager.updateParameter m params selection w in
  if String.eqb newValue (Value param) then
    fst r = (None, m) /\ puts (trace (snd r)) = puts (trace w)
  else
    puts (trace (snd r)) = puts (trace w) ++ repeat input (Nat.min (S k) 5)
    /\ fst r
       = if (k <? 5)%nat
         then (None,
               Manager.mkManager (Manager.prefix m) (Some (written input))
                                 (Manager.quiet m))
         else (Some (Errorf "error updating parameter: failed to update parameter after 5 attempts"),
               m).
Proof.
  intros Hfind Hs newValue input k r. subst r.
  unfold Manager.updateParameter. rewrite Hfind.
  set (w1 := if negb (Manager.quiet m) then _ else w).
  assert (H1 : script w1 = script w /\ faults w1 = faults w
               /\ puts (trace w1) = puts (trace w)).
  { subst w1. destruct (Manager.quiet m); cbn [negb];
      rewrite ?Println_puts; auto. }
  destruct H1 as (Hsc & Hfa & Hpu).
  unfold Manager.promptForNewValue.
  rewrite (Readline_typed (Value param) line false w1 rest) by congruence.
  set (w2 := asked _ w1).
  assert (H2 : faults w2 = faults w /\ puts (trace w2) = puts (trace w)).
  { subst w2. unfold asked. cbn [faults trace].
    rewrite puts_app. simpl. rewrite app_nil_r. auto. }
  destruct H2 as (Hfa2 & Hpu2).
  fold newValue.
  destruct (String.eqb newValue (Value param)).
  - destruct (Manager.quiet m); cbn [negb fst snd]; rewrite ?Println_puts;
      auto.
  - unfold Manager.updateParameterWithRetry. fold input.
    destruct (retryLoop_closed_form Manager.maxRetries input w2 eq_refl)
      as [Herr Htr].
    rewrite Hfa2 in Herr, Htr. fold k in Herr, Htr.
    change Manager.maxRetries with 5 in *.
    assert (Hputs : puts (trace (snd (Manager.retryLoop 5 input w2)))
                    = puts (trace w) ++ repeat input (Nat.min (S k) 5)).
    { rewrite Htr, !puts_app, puts_failedAttempts, Hpu2. f_equal.
      destruct (Nat.ltb_spec k 5) as [Hlt|Hge].
      - rewrite (Nat.min_l k 5) by lia.
        replace (Nat.min (S k) 5) with (S k) by lia.
        change (puts [CallPutParameter input]) with [input].
        cbn [repeat]. symmetry. apply repeat_cons.
      - rewrite (Nat.min_r k 5) by lia.
        replace (Nat.min (S k) 5) with 5 by lia.
        change (puts []) with (@nil PutParameterInput).
        now rewrite app_nil_r. }
    destruct (Manager.retryLoop 5 input w2) as [[e|] w3];
      cbn [fst snd] in *.
    + split; [exact Hputs|].
      destruct (k <? 5)%nat; [discriminate|].
      injection Herr as ->. reflexivity.
    + split.
      * destruct (Manager.quiet m); cbn [negb]; rewrite ?Println_puts;
          exact Hputs.
      * destruct (k <? 5)%nat; [reflexivity | discriminate].
Qed.

Lemma Manager_edit_turn_witness :
  let m := Manager.mkManager "/app/test/" None true in
  let A := mkParam "/app/test/A" "1" "String" in
  let w := mkWorld [A] [Some "ThrottlingException"] [Typed ""] [] in
  let nbsp := mkWorld [A] [] [Typed (utf8 [49; 194; 160])] [] in
  puts (trace (snd (Manager.updateParameter m [A] "A = 1" w)))
  = [mkPut "/app/test/A" "" "String" true;
     mkPut "/app/test/A" "" "String" true]
  /\ puts (trace (snd (Manager.updateParameter m [A] "A = 1" nbsp))) = [].
Proof.
  intros m A w nbsp.
  pose proof (Manager_edit_turn m [A] "A = 1" A "" w [] eq_refl eq_refl) as H.
  cbv zeta in H. change (TrimSpace "") with "" in H.
  cbn [String.eqb Value A] in H.
  destruct H as [Hp _].
  pose proof (Manager_edit_turn m [A] "A = 1" A (utf8 [49; 194; 160]) nbsp []
                eq_refl eq_refl) as H'.
  cbv zeta in H'. change (TrimSpace (utf8 [49; 194; 160])) with "1" in H'.
  cbn [String.eqb Ascii.eqb Bool.eqb Value A] in H'.
  destruct H' as [_ Hp'].
  split; [exact Hp | exact Hp'].
Defined.

End EditTurn.

(* ================================================================== *)
(** ** The turns of [Legacy] and the creation of [Secure] *)
(* ================================================================== *)

Section OtherTurns.
Import GoLib Env Obs.

Lemma Legacy_formatParameters_nth (params : list Param) (i : nat)
      (p : Param) :
  nth_error params i = Some p ->
  nth_error (Legacy.formatParameters params) i
  = Some (Sprintf_kv (lastField (Split (Name p) "/"%char)) (Value p)).
Proof.
  intros H. unfold Legacy.formatParameters.
  rewrite range_append_map. simpl. rewrite nth_error_map, H. reflexivity.
Qed.

(** X13.  A turn of [Legacy] in which the user picks an entry and enters a
    line: the line is trimmed; an empty line cancels, nothing is written;
    any other line, also the value the entry already has, is written once,
    under the name rebuilt from the menu line, with the type "SecureString"
    and [Overwrite] set.  The loop goes on in both cases. *)
Theorem Legacy_edit_turn (prefix : string) (params : list Param)
        (index : nat) (selected : Param) (line : string) (w w1 : World)
        (rest : list Answer) :
  fetchAll prefix w = Some (Ok params, w1) ->
  script w1 = Chosen index :: Typed line :: rest ->
  nth_error params index = Some selected ->
  let newValue := TrimSpace line in
  let shownLine := Sprintf_kv (lastField (Split (Name selected) "/"%char))
                              (Value selected) in
  let input := mkPut (prefix ++ SplitN2_first " = " shownLine)%string newValue
                     "SecureString" true in
  let r := Legacy.iteration prefix w in
  (exists latest, fst r = Continue latest)
  /\ puts (trace (snd r))
     = puts (trace w1)
       ++ (if String.eqb newValue EmptyString then [] else [input]).
Proof.
  intros Hf Hs Hn newValue shownLine input r. subst r.
  unfold Legacy.iteration. rewrite Hf.
  rewrite (SelectRun_chosen _ index shownLine w1 (Typed line :: rest)
             (Legacy_formatParameters_nth params index selected Hn) Hs).
  rewrite Hn. fold shownLine.
  set (w4 := emit _ (Println _ (asked _ w1))).
  assert (H4 : script w4 = Typed line :: rest
               /\ puts (trace w4) = puts (trace w1)).
  { subst w4. unfold Println, emit, asked. cbn [script trace].
    rewrite Hs, !puts_app. simpl. rewrite !app_nil_r. auto. }
  destruct H4 as [Hs4 Hp4]. clearbody w4.
  assert (Hread : ReadString w4 = (line, asked AskStdin w4)).
  { unfold ReadString, nextAnswer, emit, asked. simpl. rewrite Hs4.
    reflexivity. }
  rewrite Hread. fold newValue.
  assert (Hp5 : puts (trace (asked AskStdin w4)) = puts (trace w1)).
  { unfold asked. cbn [trace]. rewrite puts_app. simpl.
    rewrite app_nil_r. exact Hp4. }
  destruct (String.eqb newValue EmptyString).
  - split; [eexists; reflexivity|]. cbn [snd].
    rewrite Println_puts, Hp5. now rewrite app_nil_r.
  - unfold Legacy.updateParameter. fold input.
    pose proof (PutParameter_trace input (asked AskStdin w4)) as Ht.
    destruct (PutParameter input (asked AskStdin w4)) as [[e|] w6];
      cbn [fst snd] in *;
      (split; [eexists; reflexivity|]);
      rewrite Println_puts, Ht, puts_app, Hp5; reflexivity.
Qed.

Lemma Legacy_edit_turn_witness :
  let A := mkParam "/app/test/A" "1" "String" in
  let w := mkWorld [A] [] [Chosen 0; Typed "1"] [] in
  let u := mkWorld [A] []
             [Chosen 0; Typed (utf8 [194; 160; 57; 226; 128; 131])] [] in
  puts (trace (snd (Legacy.iteration "/app/test/" w)))
  = [mkPut "/app/test/A" "1" "SecureString" true]
  /\ puts (trace (snd (Legacy.iteration "/app/test/" u)))
     = [mkPut "/app/test/A" "9" "SecureString" true].
Proof.
  intros A w u.
  destruct (Legacy_edit_turn "/app/test/" [A] 0 A "1" w
              (answered (CallGetParametersByPath
                           (mkGet "/app/test/" false true None)) w)
              [] eq_refl eq_refl eq_refl) as [_ H].
  destruct (Legacy_edit_turn "/app/test/" [A] 0 A
              (utf8 [194; 160; 57; 226; 128; 131]) u
              (answered (CallGetParametersByPath
                           (mkGet "/app/test/" false true None)) u)
              [] eq_refl eq_refl eq_refl) as [_ H'].
  split; [exact H | exact H'].
Defined.

(** X14.  A creation in [Secure] that gets its three answers and meets no
    failure of the service makes one write, with [Overwrite] unset, under
    the prefix followed by the name as typed.  When the store holds that
    name the creation fails, its error being "failed to create parameter: "
    followed by the error text of the service, and the store is as before;
    otherwise it succeeds and the store holds one more entry, the new one,
    at its end. *)
Theorem Secure_create_outcome (prefix name value paramType : string)
        (quiet : bool) (index : nat) (w : World) (rest : list Answer) :
  script w = Typed name :: Typed value :: Chosen index :: rest ->
  nth_error Secure.paramTypes index = Some paramType ->
  failuresAhead (faults w) = 0 ->
  let fullName := (prefix ++ name)%string in
  let input := mkPut fullName value paramType false in
  let r := Secure.createNewParameter prefix quiet w in
  puts (trace (snd r)) = puts (trace w) ++ [input]
  /\ if exists_ fullName (store w)
     then fst r = Some (Errorf ("failed to create parameter: "
                                ++ refusal w)%string)
          /\ store (snd r) = store w
     else fst r = None /\ store (snd r) = store w ++ [written input].
Proof.
  intros Hs Hi Hk fullName input r. subst r.
  unfold Secure.createNewParameter.
  rewrite (PromptRun_typed _ name w _ Hs).
  rewrite (PromptRun_typed _ value (asked _ w) (Chosen index :: rest))
    by (simpl; now rewrite Hs).
  rewrite (SelectRun_chosen _ index paramType _ rest Hi)
    by (simpl; now rewrite Hs).
  fold fullName. fold input.
  unfold PutParameter, nextFault, emit, asked. simpl.
  destruct (faults w) as [|[msg|] fl]; simpl in Hk; try discriminate; simpl;
    destruct (exists_ fullName (store w)); simpl;
    destruct quiet; simpl; rewrite !puts_app; simpl; rewrite ?app_nil_r;
    repeat split; reflexivity.
Qed.

Lemma Secure_create_outcome_witness :
  let w := mkWorld [mkParam "/app/test/A" "1" "String"] []
                   [Typed "C"; Typed "3"; Chosen 2] [] in
  let text := "ParameterAlreadyExists: The parameter already exists. status code: 400, request id: 7f3c" in
  let v := mkWorldWith [mkParam "/app/test/A" "1" "String"] []
                       [Typed "A"; Typed "2"; Chosen 0] [] text in
  store (snd (Secure.createNewParameter "/app/test/" true w))
  = [mkParam "/app/test/A" "1" "String";
     mkParam "/app/test/C" "3" "SecureString"]
  /\ fst (Secure.createNewParameter "/app/test/" true v)
     = Some (Errorf ("failed to create parameter: " ++ text)%string)
  /\ store (snd (Secure.createNewParameter "/app/test/" true v))
     = [mkParam "/app/test/A" "1" "String"].
Proof.
  intros w text v.
  destruct (Secure_create_outcome "/app/test/" "C" "3" "SecureString" true 2
              w [] eq_refl eq_refl eq_refl) as [_ H].
  cbv zeta in H.
  change (exists_ ("/app/test/" ++ "C")%string (store w)) with false in H.
  destruct H as [_ H].
  destruct (Secure_create_outcome "/app/test/" "A" "2" "String" true 0
              v [] eq_refl eq_refl eq_refl) as [_ H'].
  cbv zeta in H'.
  change (exists_ ("/app/test/" ++ "A")%string (store v)) with true in H'.
  destruct H' as [He Hs].
  split; [exact H | split; [exact He | exact Hs]].
Defined.

(** X15.  In [Secure] the end of the input is met differently in the two
    sub-flows of one turn: at the prompts of a creation it gives up the
    creation and the loop goes on with the cache it had; at the prompt for
    the new value of an entry it ends [main], with "Input failed EOF".
    Neither writes anything. *)
Theorem Secure_end_of_input (prefix : string) (debug secure : bool)
        (latestParam : option Param) (params : list Param) (w w1 : World)
        (rest : list Answer) :
  fetchAll prefix w = Some (Ok params, w1) ->
  (script w1 = Chosen 0 :: EndOfInput :: rest ->
   fst (Secure.iteration prefix debug secure latestParam w)
   = Continue latestParam
   /\ puts (trace (snd (Secure.iteration prefix debug secure latestParam w)))
      = puts (trace w1))
  /\ (forall i selected,
        script w1 = Chosen (S i) :: EndOfInput :: rest ->
        nth_error (Listing.reconcile latestParam params) i = Some selected ->
        fst (Secure.iteration prefix debug secure latestParam w)
        = Stop Returned
        /\ puts (trace (snd (Secure.iteration prefix debug secure
                                              latestParam w)))
           = puts (trace w1)).
Proof.
  intros Hf. split.
  - intros Hs. unfold Secure.iteration. rewrite Hf.
    pose proof (SelectRun_chosen
                  (secureMenu secure (Listing.reconcile latestParam params))
                  0 "Create new variable" w1 _ eq_refl Hs) as Hsel.
    unfold secureMenu in Hsel. rewrite Hsel.
    unfold Secure.createNewParameter, PromptRun, nextAnswer, emit, asked.
    simpl. rewrite Hs. simpl. split; [reflexivity|].
    rewrite !puts_app. simpl. now rewrite !app_nil_r.
  - intros i selected Hs Hn. unfold Secure.iteration. rewrite Hf.
    pose proof (SelectRun_chosen
                  (secureMenu secure (Listing.reconcile latestParam params))
                  (S i) _ w1 _
                  (secureMenu_entry secure _ i selected Hn) Hs) as Hsel.
    unfold secureMenu in Hsel. rewrite Hsel.
    unfold Secure.editSelected. replace (S i - 1) with i by lia.
    rewrite Hn.
    unfold ReadlineWithDefault, nextAnswer, emit, asked, Println.
    destruct debug, secure; simpl; rewrite Hs; simpl;
      (split; [reflexivity|]);
      rewrite !puts_app; simpl; now rewrite !app_nil_r.
Qed.

Lemma Secure_end_of_input_witness :
  let A := mkParam "/app/test/A" "1" "String" in
  fst (Secure.iteration "/app/test/" false false None
         (mkWorld [A] [] [Chosen 0; EndOfInput] []))
  = Continue None
  /\ fst (Secure.iteration "/app/test/" false false None
            (mkWorld [A] [] [Chosen 1; EndOfInput] []))
     = Stop Returned.
Proof.
  intros A. split.
  - destruct (Secure_end_of_input "/app/test/" false false None [A]
                (mkWorld [A] [] [Chosen 0; EndOfInput] [])
                (answered (CallGetParametersByPath
                             (mkGet "/app/test/" false true None))
                   (mkWorld [A] [] [Chosen 0; EndOfInput] []))
                [] eq_refl) as [H _].
    exact (proj1 (H eq_refl)).
  - destruct (Secure_end_of_input "/app/test/" false false None [A]
                (mkWorld [A] [] [Chosen 1; EndOfInput] [])
                (answered (CallGetParametersByPath
                             (mkGet "/app/test/" false true None))
                   (mkWorld [A] [] [Chosen 1; EndOfInput] []))
                [] eq_refl) as [_ H].
    exact (proj1 (H 0 A eq_refl eq_refl)).
Defined.

(** X17.  In [Secure] and in [Legacy] a listing whose first page request
    fails ends [main] at once: the one request made, the message "Error
    fetching parameters: " followed by the error of the service, no prompt,
    no second request, whatever fuel is left. *)
Theorem read_error_ends_session (msg : string) (w : World)
        (rest : list (option string)) :
  faults w = Some msg :: rest ->
  forall (fuel : nat) (prefix : string),
    let w' := Println ("Error fetching parameters: " ++ msg)%string
                (answered (CallGetParametersByPath
                             (mkGet prefix false true None)) w) in
    (forall debug secure latestParam,
        Secure.loop (S fuel) prefix debug secure latestParam w
        = (Returned, w'))
    /\ Legacy.loop (S fuel) prefix w = (Returned, w')
    /\ gets (trace w')
       = gets (trace w) ++ [mkGet prefix false true None]
    /\ script w' = script w.
Proof.
  intros Hf fuel prefix w'. subst w'.
  pose proof (fetchAll_fault prefix msg w rest Hf) as E.
  split; [|split; [|split]].
  - intros debug secure latestParam.
    now rewrite (Secure_read_error_halts fuel prefix debug secure latestParam
                   w _ _ E).
  - now rewrite (Legacy_read_error_halts fuel prefix w _ _ E).
  - unfold Println, emit, answered. cbn [trace]. rewrite !gets_app. simpl.
    now rewrite app_nil_r.
  - reflexivity.
Qed.

Lemma read_error_ends_session_witness :
  fst (Secure.loop 7 "/app/test/" true false None
         (mkWorld [] [Some "AccessDeniedException"] [Chosen 0] []))
  = Returned.
Proof.
  destruct (read_error_ends_session "AccessDeniedException"
              (mkWorld [] [Some "AccessDeniedException"] [Chosen 0] []) []
              eq_refl 6 "/app/test/") as [H _].
  rewrite H. reflexivity.
Defined.

End OtherTurns.

(* ================================================================== *)
(** ** A page that fails, a creation that succeeds, a line that names *)
(* ================================================================== *)

Section LastFacts.
Import GoLib Env Obs.

Lemma GetParametersByPath_head (prefix : string) (tok : option nat)
      (w : World) (f : option string) (fs : list (option string)) :
  faults w = f :: fs ->
  let off := match tok with Some n => n | None => 0 end in
  let all := children prefix (store w) in
  GetParametersByPath (mkGet prefix false true tok) w
  = (match f with
     | Some msg => Err (Errorf msg)
     | None => Ok (firstn maxResults (skipn off all),
                   if (off + maxResults <? List.length all)%nat
                   then Some (off + maxResults) else None)
     end,
     answered (CallGetParametersByPath (mkGet prefix false true tok)) w).
Proof.
  intros Hf off all. unfold GetParametersByPath, nextFault, emit, answered.
  cbn [faults store script trace Path NextToken]. rewrite Hf.
  destruct f; reflexivity.
Qed.

Lemma fetchPages_later_fault (prefix msg : string)
      (rest : list (option string)) (k : nat) :
  forall (fuel : nat) (tok : option nat) (acc : list Param) (w : World),
    faults w = repeat None k ++ Some msg :: rest ->
    k < fuel ->
    match tok with Some n => n | None => 0 end + k * maxResults
    < List.length (children prefix (store w)) \/ k = 0 ->
    exists w',
      fetchPages fuel prefix tok acc w = Some (Err (Errorf msg), w')
      /\ List.length (gets (trace w')) = List.length (gets (trace w)) + S k
      /\ faults w' = rest /\ store w' = store w.
Proof.
  induction k as [|k IH]; intros fuel tok acc w Hf Hfuel Hlen;
    (destruct fuel as [|fuel]; [lia|]); cbn [fetchPages].
  - cbn [repeat app] in Hf.
    rewrite (GetParametersByPath_head prefix tok w _ _ Hf).
    eexists. split; [reflexivity|].
    unfold answered. cbn [trace faults store]. rewrite Hf, gets_app.
    rewrite length_app. simpl. auto.
  - cbn [repeat app] in Hf.
    rewrite (GetParametersByPath_head prefix tok w _ _ Hf).
    set (off := match tok with Some n => n | None => 0 end) in *.
    destruct Hlen as [Hlen|Hz]; [|discriminate].
    replace (off + maxResults <? List.length (children prefix (store w)))%nat
      with true
      by (symmetry; apply Nat.ltb_lt; unfold maxResults in *; lia).
    set (w1 := answered _ w).
    destruct (IH fuel (Some (off + maxResults))
                 (acc ++ firstn maxResults
                           (skipn off (children prefix (store w)))) w1)
      as (w' & E & Hg & Hfa & Hst).
    + subst w1. unfold answered. cbn [faults]. now rewrite Hf.
    + lia.
    + left. subst w1. unfold answered. cbn [store].
      unfold maxResults in *. lia.
    + exists w'. split; [exact E|]. subst w1. unfold answered in *.
      cbn [trace store] in *. rewrite gets_app, length_app in Hg.
      simpl in Hg. repeat split; try assumption. lia.
Qed.

(** X19.  The read is all or nothing: when the request for a page fails,
    the first or a later one that the listing is long enough to need,
    [fetchParameters] returns the error of that request and no parameter;
    the pages fetched before are dropped and no further page is
    requested. *)
Theorem fetchParameters_all_or_nothing (prefix msg : string) (k : nat)
        (w : World) (rest : list (option string)) :
  faults w = repeat None k ++ Some msg :: rest ->
  k * maxResults < List.length (children prefix (store w)) \/ k = 0 ->
  exists w',
    fetchAll prefix w = Some (Err (Errorf msg), w')
    /\ List.length (gets (trace w')) = List.length (gets (trace w)) + S k
    /\ faults w' = rest /\ store w' = store w.
Proof.
  intros Hf Hlen. unfold fetchAll.
  apply (fetchPages_later_fault prefix msg rest k); [exact Hf | | exact Hlen].
  destruct Hlen as [Hlen| ->]; [|lia].
  unfold children, maxResults in *.
  pose proof (filter_length_le (isChild prefix) (store w)). lia.
Qed.

Lemma fetchParameters_all_or_nothing_witness :
  let p := mkParam "/p/a" "1" "String" in
  let w := mkWorld (repeat p 23) [None; None; Some "ThrottlingException"]
                   [] [] in
  exists w', fetchAll "/p/" w = Some (Err (Errorf "ThrottlingException"), w')
             /\ List.length (gets (trace w')) = 3.
Proof.
  intros p w.
  destruct (fetchParameters_all_or_nothing "/p/" "ThrottlingException" 2 w []
              eq_refl) as (w' & E & Hg & _).
  - left. vm_compute. repeat constructor.
  - exists w'. split; [exact E | exact Hg].
Defined.

(** X18.  A turn of [Secure] that creates an entry under a fresh name,
    without failure of the service: the menu, the two prompts, the choice of
    the type and the one write, in this order, and then the line "Parameter
    created successfully." exactly when the debug flag is off, since [main]
    hands its debug flag to the [quiet] parameter of [createNewParameter].
    The loop goes on with the cache it had. *)
Theorem Secure_create_turn (prefix name value paramType : string)
        (debug secure : bool) (latestParam : option Param)
        (params : list Param) (index : nat) (w w1 : World)
        (rest : list Answer) :
  fetchAll prefix w = Some (Ok params, w1) ->
  script w1
  = Chosen 0 :: Typed name :: Typed value :: Chosen index :: rest ->
  nth_error Secure.paramTypes index = Some paramType ->
  failuresAhead (faults w1) = 0 ->
  exists_ (prefix ++ name)%string (store w1) = false ->
  let r := Secure.iteration prefix debug secure latestParam w in
  fst r = Continue latestParam
  /\ trace (snd r)
     = trace w1
       ++ [AskSelect (secureMenu secure
                        (Listing.reconcile latestParam params));
           AskPrompt "Enter new parameter name";
           AskPrompt "Enter parameter value";
           AskSelect Secure.paramTypes;
           CallPutParameter
             (mkPut (prefix ++ name)%string value paramType false)]
       ++ (if debug then []
           else [Print ("Parameter created successfully."
                        ++ String (ascii_of_nat 10) EmptyString)%string])
  /\ store (snd r)
     = store w1 ++ [mkParam (prefix ++ name)%string value paramType].
Proof.
  intros Hf Hs Hi Hk Hex r. subst r. unfold Secure.iteration. rewrite Hf.
  pose proof (SelectRun_chosen
                (secureMenu secure (Listing.reconcile latestParam params))
                0 "Create new variable" w1 _ eq_refl Hs) as Hsel.
  unfold secureMenu in Hsel. rewrite Hsel. fold (secureMenu secure
    (Listing.reconcile latestParam params)).
  unfold Secure.createNewParameter.
  rewrite (PromptRun_typed _ name (asked _ w1)
             (Typed value :: Chosen index :: rest))
    by (simpl; now rewrite Hs).
  rewrite (PromptRun_typed _ value (asked _ (asked _ w1))
             (Chosen index :: rest))
    by (simpl; now rewrite Hs).
  rewrite (SelectRun_chosen _ index paramType _ rest Hi)
    by (simpl; now rewrite Hs).
  unfold PutParameter, nextFault, emit, asked, Println. simpl.
  destruct (faults w1) as [|[msg|] fl]; simpl in Hk; try discriminate; simpl;
    rewrite Hex; simpl; destruct debug; simpl;
    rewrite <- ?app_assoc; simpl; repeat split; reflexivity.
Qed.

Lemma Secure_create_turn_witness :
  let w := mkWorld [] [] [Chosen 0; Typed "C"; Typed "3"; Chosen 0] [] in
  store (snd (Secure.iteration "/app/test/" true false None w))
  = [mkParam "/app/test/C" "3" "String"].
Proof.
  intros w.
  destruct (Secure_create_turn "/app/test/" "C" "3" "String" true false None
              [] 0 w
              (answered (CallGetParametersByPath
                           (mkGet "/app/test/" false true None)) w)
              [] eq_refl eq_refl eq_refl eq_refl eq_refl) as (_ & _ & H).
  exact H.
Defined.

(** X20.  From a menu line back to its entry: for an entry one level below
    a prefix that ends in "/", whose relative name has no blank, the name
    that [Secure] and [Legacy] rebuild from the line of the menu (the text
    before the first " = ", after the prefix) is the full name of that
    entry, whether the value shown is the real one or the mask. *)
Theorem menu_line_names_its_entry (dir rel : string) (params : list Param)
        (i : nat) (p : Param) :
  nth_error params i = Some p ->
  Name p = ((dir ++ "/") ++ rel)%string ->
  hasSlash rel = false -> hasSpace rel = false ->
  (forall secure,
      exists line,
        nth_error (secureMenu secure params) (S i) = Some line
        /\ ((dir ++ "/") ++ SplitN2_first " = " line)%string = Name p)
  /\ (exists line,
        nth_error (Legacy.formatParameters params) i = Some line
        /\ ((dir ++ "/") ++ SplitN2_first " = " line)%string = Name p).
Proof.
  intros Hp Hname Hslash Hspace. split.
  - intros secure. eexists.
    split; [apply (secureMenu_entry secure params i p Hp)|].
    rewrite Hname. apply (name_rebuilt_from_menu_line dir rel _ Hslash Hspace).
  - eexists. split; [apply (Legacy_formatParameters_nth params i p Hp)|].
    rewrite Hname. apply (name_rebuilt_from_menu_line dir rel _ Hslash Hspace).
Qed.

Lemma menu_line_names_its_entry_witness :
  let B := mkParam "/app/test/DB_PASS" "a = b" "SecureString" in
  exists line,
    nth_error (secureMenu false [B]) 1 = Some line
    /\ ("/app/test/" ++ SplitN2_first " = " line)%string = Name B.
Proof.
  intros B.
  destruct (menu_line_names_its_entry "/app/test" "DB_PASS" [B] 0 B
              eq_refl eq_refl eq_refl eq_refl) as [H _].
  exact (H false).
Defined.

End LastFacts.
